(** * Hummingbird backtest runner: a shallow embedding of
      [tools/backtest_runner.py] and the properties of its execution
      engine and metrics.

    Numbers.  The Python code computes on binary floating point.  The
    ledger arithmetic of [run_backtest] is embedded over the exact
    rationals [Q]: the control flow, the comparisons and the order of the
    operations are those of the source, the rounding error of each float
    operation is not modelled.  The pandas series of [compute_metrics]
    carry the special values of floating point ([nan], the infinities),
    which the source can really produce by dividing by zero; they are
    embedded as [fnum].

    Dictionaries.  A trade dict yielded by a strategy is a record of
    optional fields (a [None] field is a missing key); the dict returned
    by [run_backtest] and by [compute_metrics] is a [gmap] from its string
    keys.

    Inputs.  The CSV file is the list of its rows; a strategy is a function
    from the sorted frame to the finite list of the trade dicts its
    generator yields, in the order it yields them.  Timestamps and the
    latency are rationals, in milliseconds.  Exceptions are results
    [Raise e]: the first one ends the run. *)

From Stdlib Require Import QArith Qround Qabs Lqa ZArith List.
From stdpp Require Import base option list sorting gmap strings.

Local Open Scope Q_scope.

(** ** Exceptions *)

Inductive exn : Type :=
| KeyError (key : string)
| IndexError.

Inductive res (A : Type) : Type :=
| Ok (a : A)
| Raise (e : exn).
Arguments Ok {A} a.
Arguments Raise {A} e.

#[global] Instance res_ret : MRet res := fun A a => Ok a.
#[global] Instance res_bind : MBind res := fun A B k m =>
  match m with
  | Ok a => k a
  | Raise e => Raise e
  end.

(** ** Trade dicts *)

Module Trade.

(** The dict a strategy yields: [{'time','side','price','size'}], each key
    possibly missing.  Times are in milliseconds. *)
Record t : Type := mk {
  time : option Q;
  side : option string;
  price : option Q;
  size : option Q
}.

(** [trade.get('side')], [float(trade.get('price', 0))],
    [float(trade.get('size', 1))] and [trade['time']]. *)
Definition get_side (tr : t) : option string := side tr.
Definition get_price (tr : t) : Q := default 0 (price tr).
Definition get_size (tr : t) : Q := default 1 (size tr).
Definition item_time (tr : t) : res Q :=
  match time tr with
  | Some tm => Ok tm
  | None => Raise (KeyError "time")
  end.

End Trade.

(** An executed trade: [{**trade, 'exec_time': ..., 'exec_price': ...}]. *)
Record executed : Type := mk_executed {
  intent : Trade.t;
  exec_time : Q;
  exec_price : Q
}.

(** ** The ledger of one run *)

Record ledger : Type := mk_ledger {
  cash : Q;
  position : Q;
  trades : list executed
}.

Definition is_side (s : string) (o : option string) : bool :=
  bool_decide (o = Some s).

Section Engine.

Variables latency_ms slippage_bps : Q.

Definition slip_of (price : Q) : Q := price * (slippage_bps / 10000).

Definition exec_price_of (side : option string) (price : Q) : Q :=
  if is_side "buy" side then price + slip_of price else price - slip_of price.

(** One iteration of the loop [for trade in strategy_fn(df)]. *)
Definition step (st : ledger) (trade : Trade.t) : res ledger :=
  let side := Trade.get_side trade in
  let price := Trade.get_price trade in
  let size := Trade.get_size trade in
  tm ← Trade.item_time trade;
  let exec_time := tm + latency_ms in
  let exec_price := exec_price_of side price in
  if is_side "buy" side then
    let cost := exec_price * size in
    if Qle_bool cost (cash st) then
      Ok {| cash := cash st - cost;
            position := position st + size;
            trades := trades st ++ [mk_executed trade exec_time exec_price] |}
    else Ok st
  else if is_side "sell" side then
    if Qle_bool size (position st) then
      Ok {| cash := cash st + exec_price * size;
            position := position st - size;
            trades := trades st ++ [mk_executed trade exec_time exec_price] |}
    else Ok st
  else Ok st.

(** The whole loop: the first exception ends it. *)
Fixpoint run_loop (st : ledger) (intents : list Trade.t) : res ledger :=
  match intents with
  | [] => Ok st
  | trade :: rest => st' ← step st trade; run_loop st' rest
  end.

End Engine.

(** ** The price series *)

(** A row of the CSV; only the columns the runner and the sample strategy read
    are kept.  Timestamps are in milliseconds. *)
Record Bar : Type := mk_bar {
  timestamp : Q;
  open : Q;
  close : Q
}.

(** [df.sort_values('timestamp')], as an insertion sort that keeps rows of
    equal timestamp in their order (pandas leaves the order of such rows
    to its sorting algorithm). *)
Fixpoint insert_bar (b : Bar) (df : list Bar) : list Bar :=
  match df with
  | [] => [b]
  | b' :: rest =>
      if Qle_bool (timestamp b) (timestamp b') && negb (Qeq_bool (timestamp b) (timestamp b'))
      then b :: b' :: rest
      else b' :: insert_bar b rest
  end.

Definition sort_values (df : list Bar) : list Bar :=
  fold_left (fun acc b => insert_bar b acc) df [].

(** [series.iloc[-1]]. *)
Definition iloc_last {A : Type} (series : list A) : res A :=
  match last series with
  | Some a => Ok a
  | None => Raise IndexError
  end.

(** ** Reporting *)

(** Python's [round(x, ndigits)]: to the nearest multiple of [10^-ndigits],
    a tie going to the even one. *)
Definition round_half_even (q : Q) : Z :=
  let f := Qfloor q in
  match Qcompare (q - inject_Z f) (1 # 2) with
  | Lt => f
  | Gt => (f + 1)%Z
  | Eq => if Z.even f then f else (f + 1)%Z
  end.

Definition py_round (q : Q) (ndigits : nat) : Q :=
  let scale := Pos.pow 10 (Pos.of_nat ndigits) in
  match ndigits with
  | O => Qred (inject_Z (round_half_even q))
  | S _ => Qred (round_half_even (q * inject_Z (Zpos scale)) # scale)
  end.

(** The values of the result dict. *)
Inductive value : Type :=
| VFloat (q : Q)
| VInt (n : nat)
| VTrades (l : list executed).

(** The condition of the list comprehension that builds [win_trades]:
    [t['side'] == 'sell' and t['exec_price'] > t['price']].  The price is
    the one stored in the trade dict itself. *)
Definition is_win (t : executed) : res bool :=
  match Trade.side (intent t) with
  | None => Raise (KeyError "side")
  | Some s =>
      if String.eqb s "sell" then
        match Trade.price (intent t) with
        | None => Raise (KeyError "price")
        | Some p => Ok (negb (Qle_bool (exec_price t) p))
        end
      else Ok false
  end.

Fixpoint win_trades (ts : list executed) : res (list executed) :=
  match ts with
  | [] => Ok []
  | t :: rest =>
      w ← is_win t;
      ws ← win_trades rest;
      Ok (if w : bool then t :: ws else ws)
  end.

Definition win_rate_of (wins total_trades : nat) : Q :=
  if (2 <=? total_trades)%nat
  then (inject_Z (Z.of_nat wins) / (inject_Z (Z.of_nat total_trades) / 2)) * 100
  else 0.

(** ** [run_backtest] *)

Definition init_ledger (starting_cash : Q) : ledger :=
  {| cash := starting_cash; position := 0; trades := [] |}.

Definition strategy : Type := list Bar -> list Trade.t.

Definition run_backtest (strategy_fn : strategy) (data_csv : list Bar)
    (latency_ms starting_cash slippage_bps : Q) : res (gmap string value) :=
  let df := sort_values data_csv in
  st ← run_loop latency_ms slippage_bps (init_ledger starting_cash) (strategy_fn df);
  last_price ← iloc_last (map close df);
  let equity := cash st + position st * last_price in
  let pnl := equity - starting_cash in
  let total_trades := length (trades st) in
  wins ← win_trades (trades st);
  let win_rate := win_rate_of (length wins) total_trades in
  Ok (<["pnl" := VFloat (py_round pnl 2)]>
      (<["final_equity" := VFloat (py_round equity 2)]>
      (<["cash" := VFloat (py_round (cash st) 2)]>
      (<["position" := VFloat (py_round (position st) 4)]>
      (<["total_trades" := VInt total_trades]>
      (<["win_rate" := VFloat (py_round win_rate 2)]>
      (<["trades" := VTrades (trades st)]> ∅))))))).

(** The defaults of the signature. *)
Definition default_latency_ms : Q := 0.
Definition default_starting_cash : Q := 100000.
Definition default_slippage_bps : Q := 1.

(** ** The sample strategy, [tools/sample_strategy.py] *)

Fixpoint momentum_from (prev : Bar) (rest : list Bar) : list Trade.t :=
  match rest with
  | [] => []
  | cur :: rest' =>
      (if negb (Qle_bool (close cur) (close prev)) then
         Trade.mk (Some (timestamp cur)) (Some "buy") (Some (open cur)) (Some 1)
         :: match rest' with
            | nxt :: _ =>
                [Trade.mk (Some (timestamp nxt)) (Some "sell") (Some (close nxt)) (Some 1)]
            | [] => []
            end
       else [])
      ++ momentum_from cur rest'
  end.

Definition simple_momentum (data : list Bar) : list Trade.t :=
  match sort_values data with
  | [] => []
  | b :: rest => momentum_from b rest
  end.

(** ** Series values of [compute_metrics] *)

(** A float of a pandas series: a finite value, an infinity or [nan].
    Zeros carry no sign: a finite non-zero value divided by zero is the
    infinity of the sign of the numerator. *)
Inductive fnum : Type :=
| Fin (q : Q)
| PInf
| NInf
| NaN.

Module F.

Definition of_sign (c : comparison) : fnum :=
  match c with
  | Gt => PInf
  | Lt => NInf
  | Eq => NaN
  end.

Definition sign (a : fnum) : comparison :=
  match a with
  | Fin q => Qcompare q 0
  | PInf => Gt
  | NInf => Lt
  | NaN => Eq
  end.

Definition mul_sign (c d : comparison) : comparison :=
  match c, d with
  | Eq, _ | _, Eq => Eq
  | Gt, Gt | Lt, Lt => Gt
  | Gt, Lt | Lt, Gt => Lt
  end.

Definition neg (a : fnum) : fnum :=
  match a with
  | Fin q => Fin (- q)
  | PInf => NInf
  | NInf => PInf
  | NaN => NaN
  end.

Definition add (a b : fnum) : fnum :=
  match a, b with
  | NaN, _ | _, NaN => NaN
  | Fin x, Fin y => Fin (x + y)
  | PInf, NInf | NInf, PInf => NaN
  | PInf, _ | _, PInf => PInf
  | NInf, _ | _, NInf => NInf
  end.

Definition sub (a b : fnum) : fnum := add a (neg b).

Definition mul (a b : fnum) : fnum :=
  match a, b with
  | NaN, _ | _, NaN => NaN
  | Fin x, Fin y => Fin (x * y)
  | _, _ => of_sign (mul_sign (sign a) (sign b))
  end.

Definition div (a b : fnum) : fnum :=
  match a, b with
  | NaN, _ | _, NaN => NaN
  | Fin x, Fin y => if Qeq_bool y 0 then of_sign (Qcompare x 0) else Fin (x / y)
  | Fin _, _ => Fin 0
  | _, Fin y => of_sign (mul_sign (sign a) (if Qeq_bool y 0 then Gt else Qcompare y 0))
  | _, _ => NaN
  end.

Definition is_nan (a : fnum) : bool :=
  match a with
  | NaN => true
  | _ => false
  end.

(** [a <= b], false when either is [nan]. *)
Definition leb (a b : fnum) : bool :=
  match a, b with
  | NaN, _ | _, NaN => false
  | NInf, _ | _, PInf => true
  | Fin x, Fin y => Qle_bool x y
  | _, _ => false
  end.

Definition round (a : fnum) (ndigits : nat) : fnum :=
  match a with
  | Fin q => Fin (py_round q ndigits)
  | _ => a
  end.

End F.

Section Metrics.

(** The square root on positive rationals, to whatever precision: the
    properties below hold for every choice of it. *)
Variable sqrtQ : Q -> Q.

Definition fsqrt (a : fnum) : fnum :=
  match a with
  | Fin q =>
      if Qeq_bool q 0 then Fin 0
      else if Qle_bool q 0 then NaN
      else Fin (sqrtQ q)
  | PInf => PInf
  | NInf => NaN
  | NaN => NaN
  end.

(** [s.shift(1)] and [s.pct_change()], that is [s / s.shift(1) - 1]. *)
Definition shift (s : list fnum) : list fnum :=
  match s with
  | [] => []
  | _ => NaN :: removelast s
  end.

Definition pct_change (s : list fnum) : list fnum :=
  zip_with (fun x prev => F.sub (F.div x prev) (Fin 1)) s (shift s).

Definition dropna (s : list fnum) : list fnum :=
  filter (fun x => F.is_nan x = false) s.

Definition fsum (s : list fnum) : fnum := fold_left F.add s (Fin 0).

Definition of_nat (n : nat) : fnum := Fin (inject_Z (Z.of_nat n)).

Definition mean (s : list fnum) : fnum := F.div (fsum s) (of_nat (length s)).

(** [s.std()]: the sample standard deviation ([ddof = 1]), [nan] when
    there are not more than [ddof] values. *)
Definition std (s : list fnum) : fnum :=
  let count := length s in
  if (count <=? 1)%nat then NaN
  else
    let avg := mean s in
    let sqr := fsum (map (fun x => let d := F.sub avg x in F.mul d d) s) in
    fsqrt (F.div sqr (of_nat (count - 1))).

(** [s.cummax()]. *)
Fixpoint cummax_from (m : fnum) (s : list fnum) : list fnum :=
  match s with
  | [] => []
  | x :: rest =>
      let m' := if F.is_nan m then x else if F.leb x m then m else x in
      (if F.is_nan x then NaN else m') :: cummax_from m' rest
  end.

Definition cummax (s : list fnum) : list fnum := cummax_from NaN s.

(** [s.min()], which skips [nan] and is [nan] when nothing is left. *)
Definition fmin (s : list fnum) : fnum :=
  fold_left (fun m x => if F.is_nan m then x else if F.leb x m then x else m)
            (dropna s) NaN.

Definition compute_metrics (equity_curve : list Q) : gmap string fnum :=
  let equity_curve := map Fin equity_curve in
  let returns := dropna (pct_change equity_curve) in
  let sharpe :=
    match returns with
    | [] => Fin 0
    | _ => F.mul (F.div (mean returns) (std returns)) (fsqrt (Fin 252))
    end in
  let rolling_max := cummax equity_curve in
  let drawdown :=
    zip_with (fun e m => F.div (F.sub e m) m) equity_curve rolling_max in
  let max_drawdown :=
    match drawdown with
    | [] => Fin 0
    | _ => fmin drawdown
    end in
  <["sharpe_ratio" := F.round sharpe 3]>
  (<["max_drawdown" := F.round (F.mul max_drawdown (Fin 100)) 2]> ∅).

End Metrics.

(** ** Vocabulary of the properties *)

(** The ledger after an accepted Buy and after an accepted Sell. *)
Definition fill_buy (l b : Q) (st : ledger) (tr : Trade.t) (tm : Q) : ledger :=
  let ep := exec_price_of b (Trade.get_side tr) (Trade.get_price tr) in
  {| cash := cash st - ep * Trade.get_size tr;
     position := position st + Trade.get_size tr;
     trades := trades st ++ [mk_executed tr (tm + l) ep] |}.

Definition fill_sell (l b : Q) (st : ledger) (tr : Trade.t) (tm : Q) : ledger :=
  let ep := exec_price_of b (Trade.get_side tr) (Trade.get_price tr) in
  {| cash := cash st + ep * Trade.get_size tr;
     position := position st - Trade.get_size tr;
     trades := trades st ++ [mk_executed tr (tm + l) ep] |}.

Definition cost_of (b : Q) (tr : Trade.t) : Q :=
  exec_price_of b (Trade.get_side tr) (Trade.get_price tr) * Trade.get_size tr.

Inductive step_outcome (l b : Q) (st : ledger) (tr : Trade.t) : ledger -> Prop :=
| Bought tm :
    Trade.time tr = Some tm -> Trade.side tr = Some "buy" ->
    cost_of b tr <= cash st ->
    step_outcome l b st tr (fill_buy l b st tr tm)
| Sold tm :
    Trade.time tr = Some tm -> Trade.side tr = Some "sell" ->
    Trade.get_size tr <= position st ->
    step_outcome l b st tr (fill_sell l b st tr tm)
| RejectedBuy tm :
    Trade.time tr = Some tm -> Trade.side tr = Some "buy" ->
    cash st < cost_of b tr ->
    step_outcome l b st tr st
| RejectedSell tm :
    Trade.time tr = Some tm -> Trade.side tr = Some "sell" ->
    position st < Trade.get_size tr ->
    step_outcome l b st tr st
| Skipped tm :
    Trade.time tr = Some tm ->
    Trade.side tr <> Some "buy" -> Trade.side tr <> Some "sell" ->
    step_outcome l b st tr st.

Definition has_time (tr : Trade.t) : Prop := is_Some (Trade.time tr).



(** An intent that fails the cash check or the position check. *)
Definition rejected (b : Q) (st : ledger) (tr : Trade.t) : Prop :=
  (Trade.side tr = Some "buy" /\ cash st < cost_of b tr) \/
  (Trade.side tr = Some "sell" /\ position st < Trade.get_size tr).


(** The dict [run_backtest] returns, from the final ledger, the last close
    and the winning trades (lines 85 to 103). *)
Definition summary (starting_cash : Q) (st : ledger) (last_price : Q)
    (wins : list executed) : gmap string value :=
  let equity := cash st + position st * last_price in
  let pnl := equity - starting_cash in
  let total_trades := length (trades st) in
  let win_rate := win_rate_of (length wins) total_trades in
  <["pnl" := VFloat (py_round pnl 2)]>
  (<["final_equity" := VFloat (py_round equity 2)]>
  (<["cash" := VFloat (py_round (cash st) 2)]>
  (<["position" := VFloat (py_round (position st) 4)]>
  (<["total_trades" := VInt total_trades]>
  (<["win_rate" := VFloat (py_round win_rate 2)]>
  (<["trades" := VTrades (trades st)]> ∅)))))).

(** An intent with the two keys the runner reads with [[]]: 'time' in the
    loop and, for an executed Sell, 'price' in the win count. *)
Definition complete (tr : Trade.t) : Prop :=
  has_time tr /\ is_Some (Trade.price tr).

(** What C6 says of an executed trade. *)
Definition priced_as_computed (l b : Q) (e : executed) : Prop :=
  let p := Trade.get_price (intent e) in
  (exists tm, Trade.time (intent e) = Some tm /\ exec_time e = tm + l) /\
  ((Trade.side (intent e) = Some "buy" /\ exec_price e == p + p * b / 10000) \/
   (Trade.side (intent e) = Some "sell" /\ exec_price e == p - p * b / 10000)).

(** The keys of the two dicts. *)
Definition backtest_keys : gset string :=
  {[ "pnl"; "final_equity"; "cash"; "position"; "total_trades"; "win_rate"; "trades" ]}.

Definition metrics_keys : gset string := {[ "sharpe_ratio"; "max_drawdown" ]}.

(** A bar series in ascending order of timestamp. *)
Definition ascending (df : list Bar) : Prop :=
  StronglySorted (fun a b => timestamp a <= timestamp b) df.

(** An executed trade on which the win count raises no [KeyError]. *)
Definition keyed (e : executed) : Prop :=
  is_Some (Trade.side (intent e)) /\ is_Some (Trade.price (intent e)).

(** The win rate as the specification words it: every two trades form a
    round trip, which is won when the execution price of its Sell exceeds
    the original price of its Buy. *)
Fixpoint round_trips (ts : list executed) : list (executed * executed) :=
  match ts with
  | buy :: sell :: rest => (buy, sell) :: round_trips rest
  | _ => []
  end.

Definition round_trip_won (p : executed * executed) : bool :=
  negb (Qle_bool (exec_price (snd p)) (Trade.get_price (intent (fst p)))).

Definition spec_win_rate (ts : list executed) : Q :=
  if (2 <=? length ts)%nat
  then inject_Z (Z.of_nat (length (List.filter round_trip_won (round_trips ts))))
       / inject_Z (Z.of_nat (length (round_trips ts))) * 100
  else 0.





(** A finite series value equal to zero. *)
Definition is_zero (a : fnum) : Prop := exists q, a = Fin q /\ q == 0.

(** A curve of [n] points, all equal to [c]. *)
Definition flat_curve (c : Q) (n : nat) : list Q := replicate n c.

(** ** Vocabulary of the further properties *)

(** A bar series whose timestamps strictly increase. *)
Definition strictly_ascending (df : list Bar) : Prop :=
  StronglySorted (fun a b => timestamp a < timestamp b) df.

(** ** Flows of an executed trade *)









(** The drawdowns of a curve of positive values below a running maximum
    [m]: the series that [compute_metrics] builds, on the rationals. *)
Fixpoint drawdowns (m : Q) (qs : list Q) : list Q :=
  match qs with
  | [] => []
  | x :: rest =>
      let m' := if Qle_bool x m then m else x in
      (x - m') / m' :: drawdowns m' rest
  end.

(** The least of [a] and the values of [qs], as [Series.min] finds it. *)
Definition least (a : Q) (qs : list Q) : Q :=
  fold_left (fun m x => if Qle_bool x m then x else m) qs a.

(** A curve that never falls. *)
Definition rising (qs : list Q) : Prop := Sorted Qle qs.


(** A series of closes that never rises from one bar to the next. *)
Definition never_rises (df : list Bar) : Prop :=
  Sorted (fun a b => close b <= close a) df.

(** ** The latency estimator, [tools/latency_estimator.py] *)

Definition SPEED_OF_LIGHT_FIBER_KM_PER_MS : Q := 200.
Definition AVERAGE_OVERHEAD_MS : Q := 3 # 2.

Definition estimate_fiber_latency (distance_km overhead_ms : Q) : Q :=
  distance_km / SPEED_OF_LIGHT_FIBER_KM_PER_MS + overhead_ms.

(** [random.uniform(a, b)] is [a + (b - a) * random()]; the draw [u] of
    [random()], a float of [[0, 1)], is an argument of what uses it. *)
Definition uniform (a b u : Q) : Q := a + (b - a) * u.

Definition default_jitter : Q := 2 # 10.

Definition round_trip_latency (distance_km jitter u : Q) : Q :=
  let base := estimate_fiber_latency distance_km AVERAGE_OVERHEAD_MS * 2 in
  let variation := base * uniform (- jitter) jitter u in
  py_round (base + variation) 3.




(** ** The agent, [agents/hummingbird_agent.py] *)





(** ** Scenarios *)

(** The three bars and the two intents of the worked example. *)
Definition scen_bars : list Bar :=
  [mk_bar 0 100 100; mk_bar 1 101 101; mk_bar 2 99 99].
Definition scen_strategy : strategy := fun _ =>
  [Trade.mk (Some 1) (Some "buy") (Some 101) (Some 1);
   Trade.mk (Some 2) (Some "sell") (Some 99) (Some 1)].

(** A round trip bought at 100 and sold at 110. *)
Definition profit_strategy : strategy := fun _ =>
  [Trade.mk (Some 1) (Some "buy") (Some 100) (Some 1);
   Trade.mk (Some 2) (Some "sell") (Some 110) (Some 1)].

(** * Properties *)

(** ** Comparisons and sides *)

Lemma Qle_bool_false (x y : Q) : Qle_bool x y = false <-> y < x.
Proof.
  split.
  - intros H. apply Qnot_le_lt. intros Hle. apply Qle_bool_iff in Hle. congruence.
  - intros H. destruct (Qle_bool x y) eqn:E; [|reflexivity].
    apply Qle_bool_iff in E. exfalso. exact (Qlt_not_le _ _ H E).
Qed.

Lemma is_side_true (s : string) (o : option string) : is_side s o = true <-> o = Some s.
Proof. unfold is_side. apply bool_decide_eq_true. Qed.

Lemma is_side_false (s : string) (o : option string) : is_side s o = false <-> o <> Some s.
Proof. unfold is_side. apply bool_decide_eq_false. Qed.

(** ** One step of the engine *)

Lemma step_no_time (l b : Q) (st : ledger) (tr : Trade.t) :
  Trade.time tr = None -> step l b st tr = Raise (KeyError "time").
Proof. intros H. unfold step, Trade.item_time. rewrite H. reflexivity. Qed.

Lemma step_with_time (l b : Q) (st : ledger) (tr : Trade.t) (tm : Q) :
  Trade.time tr = Some tm ->
  exists st', step l b st tr = Ok st' /\ step_outcome l b st tr st'.
Proof.
  intros Ht. unfold step, Trade.item_time. rewrite Ht. cbn.
  unfold Trade.get_side.
  destruct (is_side "buy" (Trade.side tr)) eqn:Eb.
  - apply is_side_true in Eb.
    destruct (Qle_bool _ (cash st)) eqn:Ec.
    + eexists. split; [reflexivity|].
      apply Qle_bool_iff in Ec. exact (Bought l b st tr tm Ht Eb Ec).
    + eexists. split; [reflexivity|].
      apply Qle_bool_false in Ec. exact (RejectedBuy l b st tr tm Ht Eb Ec).
  - apply is_side_false in Eb.
    destruct (is_side "sell" (Trade.side tr)) eqn:Es.
    + apply is_side_true in Es.
      destruct (Qle_bool _ (position st)) eqn:Ep.
      * eexists. split; [reflexivity|].
        apply Qle_bool_iff in Ep. exact (Sold l b st tr tm Ht Es Ep).
      * eexists. split; [reflexivity|].
        apply Qle_bool_false in Ep. exact (RejectedSell l b st tr tm Ht Es Ep).
    + apply is_side_false in Es.
      eexists. split; [reflexivity|]. exact (Skipped l b st tr tm Ht Eb Es).
Qed.

Lemma step_inv (l b : Q) (st st' : ledger) (tr : Trade.t) :
  step l b st tr = Ok st' -> step_outcome l b st tr st'.
Proof.
  intros H. destruct (Trade.time tr) as [tm|] eqn:Ht.
  - destruct (step_with_time l b st tr tm Ht) as (st'' & E & Ho).
    rewrite H in E. injection E as <-. exact Ho.
  - rewrite (step_no_time l b st tr Ht) in H. discriminate.
Qed.

(** ** The loop *)

Lemma run_loop_cons (l b : Q) (st : ledger) (tr : Trade.t) (rest : list Trade.t) :
  run_loop l b st (tr :: rest) = (st' ← step l b st tr; run_loop l b st' rest).
Proof. reflexivity. Qed.


Lemma run_loop_total (l b : Q) (intents : list Trade.t) (st : ledger) :
  Forall has_time intents -> exists st', run_loop l b st intents = Ok st'.
Proof.
  intros H. revert st. induction H as [|tr rest [tm Ht] _ IH]; intros st.
  - exists st. reflexivity.
  - destruct (step_with_time l b st tr tm Ht) as (st1 & E & _).
    destruct (IH st1) as (st' & E'). exists st'. cbn. rewrite E. exact E'.
Qed.

(** A property kept by every outcome of a step is kept by the loop. *)
Lemma run_loop_preserves (l b : Q) (P : ledger -> Prop) (Q' : Trade.t -> Prop) :
  (forall st tr st', Q' tr -> P st -> step_outcome l b st tr st' -> P st') ->
  forall intents st st',
    Forall Q' intents -> P st -> run_loop l b st intents = Ok st' -> P st'.
Proof.
  intros Hstep intents. induction intents as [|tr rest IH]; intros st st' HQ HP Hrun.
  - injection Hrun as <-. exact HP.
  - cbn in Hrun. destruct (step l b st tr) as [st1|e] eqn:E; [|discriminate].
    inversion HQ as [|? ? Htr Hrest]; subst.
    apply (IH st1 st' Hrest); [|exact Hrun].
    apply (Hstep st tr st1 Htr HP). apply step_inv. exact E.
Qed.


(** ** Solvency *)


Lemma step_rejected (l b : Q) (st : ledger) (tr : Trade.t) :
  has_time tr -> rejected b st tr -> step l b st tr = Ok st.
Proof.
  intros [tm Ht] Hrej. unfold step, Trade.item_time. rewrite Ht. cbn.
  unfold Trade.get_side. destruct Hrej as [[Hside Hlt]|[Hside Hlt]].
  - rewrite (proj2 (is_side_true "buy" _) Hside).
    unfold cost_of, Trade.get_side in Hlt.
    rewrite (proj2 (Qle_bool_false _ _) Hlt). reflexivity.
  - assert (Hnb : is_side "buy" (Trade.side tr) = false) by (rewrite Hside; reflexivity).
    rewrite Hnb, (proj2 (is_side_true "sell" _) Hside).
    rewrite (proj2 (Qle_bool_false _ _) Hlt). reflexivity.
Qed.


(** ** Claims on the ledger *)




(** C5.  A Buy intent whose cost exceeds the cash and a Sell intent whose
    size exceeds the position are rejected without an exception: the step
    returns the ledger it was given (cash, position and trades unchanged)
    and the loop goes on with the next intent.  An intent is a trade dict
    of the docstring, [{'time','side','price','size'}]: of its keys the
    statement needs 'time' only, price and size may be the defaults. *)
Theorem rejection_leaves_ledger (latency_ms slippage_bps : Q) (st : ledger)
    (tr : Trade.t) (rest : list Trade.t) :
  has_time tr ->
  rejected slippage_bps st tr ->
  step latency_ms slippage_bps st tr = Ok st /\
  run_loop latency_ms slippage_bps st (tr :: rest) = run_loop latency_ms slippage_bps st rest.
Proof.
  intros Ht Hrej. pose proof (step_rejected latency_ms slippage_bps st tr Ht Hrej) as E.
  split; [exact E|]. rewrite run_loop_cons, E. reflexivity.
Qed.

Lemma rejection_leaves_ledger_witness :
  step 0 0 (init_ledger 50) (Trade.mk (Some 1) (Some "buy") (Some 101) (Some 1))
    = Ok (init_ledger 50) /\
  run_loop 0 0 (init_ledger 50)
    [Trade.mk (Some 1) (Some "buy") (Some 101) (Some 1);
     Trade.mk (Some 2) (Some "sell") (Some 99) (Some 1)]
    = run_loop 0 0 (init_ledger 50) [Trade.mk (Some 2) (Some "sell") (Some 99) (Some 1)].
Proof.
  apply (rejection_leaves_ledger 0 0 (init_ledger 50)
           (Trade.mk (Some 1) (Some "buy") (Some 101) (Some 1))).
  - exists 1. reflexivity.
  - left. split; reflexivity.
Defined.




(** ** The returned dict *)

Lemma run_backtest_unfold (strategy_fn : strategy) (data_csv : list Bar)
    (latency_ms starting_cash slippage_bps : Q) :
  run_backtest strategy_fn data_csv latency_ms starting_cash slippage_bps =
  (st ← run_loop latency_ms slippage_bps (init_ledger starting_cash)
          (strategy_fn (sort_values data_csv));
   last_price ← iloc_last (map close (sort_values data_csv));
   wins ← win_trades (trades st);
   Ok (summary starting_cash st last_price wins)).
Proof. reflexivity. Qed.

Lemma run_backtest_inv (strategy_fn : strategy) (data_csv : list Bar)
    (latency_ms starting_cash slippage_bps : Q) (r : gmap string value) :
  run_backtest strategy_fn data_csv latency_ms starting_cash slippage_bps = Ok r ->
  exists st last_price wins,
    run_loop latency_ms slippage_bps (init_ledger starting_cash)
      (strategy_fn (sort_values data_csv)) = Ok st /\
    iloc_last (map close (sort_values data_csv)) = Ok last_price /\
    win_trades (trades st) = Ok wins /\
    r = summary starting_cash st last_price wins.
Proof.
  rewrite run_backtest_unfold. intros H.
  destruct (run_loop _ _ _ _) as [st|e]; [|discriminate].
  destruct (iloc_last _) as [lp|e]; [|discriminate].
  cbn in H. destruct (win_trades (trades st)) as [wins|e] eqn:Ew; [|discriminate].
  cbn in H. injection H as <-. exists st, lp, wins. repeat split. exact Ew.
Qed.

Lemma summary_lookup (c : Q) (st : ledger) (lp : Q) (wins : list executed) :
  let r := summary c st lp wins in
  r !! "pnl" = Some (VFloat (py_round (cash st + position st * lp - c) 2)) /\
  r !! "final_equity" = Some (VFloat (py_round (cash st + position st * lp) 2)) /\
  r !! "cash" = Some (VFloat (py_round (cash st) 2)) /\
  r !! "position" = Some (VFloat (py_round (position st) 4)) /\
  r !! "total_trades" = Some (VInt (length (trades st))) /\
  r !! "win_rate" =
    Some (VFloat (py_round (win_rate_of (length wins) (length (trades st))) 2)) /\
  r !! "trades" = Some (VTrades (trades st)).
Proof. cbn zeta. unfold summary. repeat split; simplify_map_eq; reflexivity. Qed.

Lemma summary_dom (c : Q) (st : ledger) (lp : Q) (wins : list executed) :
  dom (summary c st lp wins) = backtest_keys.
Proof.
  unfold summary, backtest_keys. rewrite !dom_insert_L, dom_empty_L. set_solver.
Qed.

Section SummaryFields.

Variables (c : Q) (st : ledger) (lp : Q) (wins : list executed).

Lemma summary_pnl :
  summary c st lp wins !! "pnl"
  = Some (VFloat (py_round (cash st + position st * lp - c) 2)).
Proof. exact (proj1 (summary_lookup c st lp wins)). Qed.

Lemma summary_final_equity :
  summary c st lp wins !! "final_equity"
  = Some (VFloat (py_round (cash st + position st * lp) 2)).
Proof. exact (proj1 (proj2 (summary_lookup c st lp wins))). Qed.

Lemma summary_cash :
  summary c st lp wins !! "cash" = Some (VFloat (py_round (cash st) 2)).
Proof. exact (proj1 (proj2 (proj2 (summary_lookup c st lp wins)))). Qed.

Lemma summary_position :
  summary c st lp wins !! "position" = Some (VFloat (py_round (position st) 4)).
Proof. exact (proj1 (proj2 (proj2 (proj2 (summary_lookup c st lp wins))))). Qed.

Lemma summary_total_trades :
  summary c st lp wins !! "total_trades" = Some (VInt (length (trades st))).
Proof. exact (proj1 (proj2 (proj2 (proj2 (proj2 (summary_lookup c st lp wins)))))). Qed.

Lemma summary_win_rate :
  summary c st lp wins !! "win_rate"
  = Some (VFloat (py_round (win_rate_of (length wins) (length (trades st))) 2)).
Proof.
  exact (proj1 (proj2 (proj2 (proj2 (proj2 (proj2 (summary_lookup c st lp wins))))))).
Qed.

Lemma summary_trades :
  summary c st lp wins !! "trades" = Some (VTrades (trades st)).
Proof.
  exact (proj2 (proj2 (proj2 (proj2 (proj2 (proj2 (summary_lookup c st lp wins))))))).
Qed.

Lemma summary_no_sharpe_ratio : summary c st lp wins !! "sharpe_ratio" = None.
Proof. unfold summary. simplify_map_eq. reflexivity. Qed.

Lemma summary_no_max_drawdown : summary c st lp wins !! "max_drawdown" = None.
Proof. unfold summary. simplify_map_eq. reflexivity. Qed.

End SummaryFields.

(** Evaluation of a run from its three stages. *)
Lemma run_backtest_eval (strategy_fn : strategy) (data_csv : list Bar)
    (latency_ms starting_cash slippage_bps : Q)
    (st : ledger) (last_price : Q) (wins : list executed) :
  run_loop latency_ms slippage_bps (init_ledger starting_cash)
    (strategy_fn (sort_values data_csv)) = Ok st ->
  iloc_last (map close (sort_values data_csv)) = Ok last_price ->
  win_trades (trades st) = Ok wins ->
  run_backtest strategy_fn data_csv latency_ms starting_cash slippage_bps
  = Ok (summary starting_cash st last_price wins).
Proof.
  intros Hrun Hlast Hwins. rewrite run_backtest_unfold, Hrun. cbn.
  rewrite Hlast. cbn. rewrite Hwins. reflexivity.
Qed.

Ltac eval_run := apply run_backtest_eval; vm_compute; reflexivity.

(** ** Execution time and price *)

Lemma slip_of_spec (b p : Q) : slip_of b p == p * b / 10000.
Proof. unfold slip_of. field. Qed.

Lemma exec_price_of_buy (b p : Q) (o : option string) :
  o = Some "buy" -> exec_price_of b o p == p + p * b / 10000.
Proof.
  intros ->. unfold exec_price_of, is_side.
  rewrite bool_decide_eq_true_2 by reflexivity. unfold slip_of. field.
Qed.

Lemma exec_price_of_sell (b p : Q) (o : option string) :
  o = Some "sell" -> exec_price_of b o p == p - p * b / 10000.
Proof.
  intros ->. unfold exec_price_of, is_side.
  rewrite bool_decide_eq_false_2 by discriminate. unfold slip_of. field.
Qed.

Lemma step_outcome_priced (l b : Q) (st st' : ledger) (tr : Trade.t) :
  Forall (priced_as_computed l b) (trades st) ->
  step_outcome l b st tr st' ->
  Forall (priced_as_computed l b) (trades st').
Proof.
  intros H Ho. destruct Ho as [tm Ht Hside _|tm Ht Hside _| | |]; try assumption.
  - cbn. apply Forall_app. split; [exact H|]. constructor; [|constructor].
    split; cbn; [exists tm; split; [exact Ht|reflexivity]|].
    left. split; [exact Hside|]. apply exec_price_of_buy. exact Hside.
  - cbn. apply Forall_app. split; [exact H|]. constructor; [|constructor].
    split; cbn; [exists tm; split; [exact Ht|reflexivity]|].
    right. split; [exact Hside|]. apply exec_price_of_sell. exact Hside.
Qed.

Lemma run_loop_priced (l b : Q) (intents : list Trade.t) (st st' : ledger) :
  Forall (priced_as_computed l b) (trades st) ->
  run_loop l b st intents = Ok st' ->
  Forall (priced_as_computed l b) (trades st').
Proof.
  intros H Hrun.
  apply (run_loop_preserves l b (fun s => Forall (priced_as_computed l b) (trades s))
           (fun _ => True)) with (intents := intents) (st := st); try assumption.
  - intros s tr s' _. apply step_outcome_priced.
  - apply Forall_forall. intros; exact I.
Qed.



(** ** The sorted frame and its last close *)

Lemma insert_bar_length (b : Bar) (df : list Bar) :
  length (insert_bar b df) = S (length df).
Proof.
  induction df as [|b' rest IH]; [reflexivity|].
  cbn. destruct (_ && _); cbn; [reflexivity|]. rewrite IH. reflexivity.
Qed.

Lemma sort_values_length (df : list Bar) : length (sort_values df) = length df.
Proof.
  unfold sort_values.
  assert (G : forall acc, length (fold_left (fun acc b => insert_bar b acc) df acc)
                          = (length acc + length df)%nat).
  { induction df as [|b rest IH]; intros acc; cbn; [lia|].
    rewrite IH, insert_bar_length. lia. }
  rewrite G. reflexivity.
Qed.

Lemma insert_bar_last (b : Bar) (df : list Bar) :
  Forall (fun a => timestamp a <= timestamp b) df -> insert_bar b df = df ++ [b].
Proof.
  induction 1 as [|b' rest Hle _ IH]; [reflexivity|].
  cbn. destruct (Qle_bool (timestamp b) (timestamp b')) eqn:E1; cbn.
  - destruct (Qeq_bool (timestamp b) (timestamp b')) eqn:E2; cbn.
    + rewrite IH. reflexivity.
    + exfalso. apply Qle_bool_iff in E1. apply Qeq_bool_neq in E2.
      apply E2. apply Qle_antisym; assumption.
  - rewrite IH. reflexivity.
Qed.

Lemma sort_values_ascending (df : list Bar) : ascending df -> sort_values df = df.
Proof.
  unfold sort_values, ascending.
  assert (G : forall acc,
             StronglySorted (fun a b => timestamp a <= timestamp b) (acc ++ df) ->
             fold_left (fun acc b => insert_bar b acc) df acc = acc ++ df).
  { induction df as [|b rest IH]; intros acc Hs; cbn.
    - rewrite app_nil_r. reflexivity.
    - rewrite insert_bar_last.
      + rewrite IH; rewrite <- app_assoc; [reflexivity|exact Hs].
      + apply Forall_forall. intros a Ha.
        apply (StronglySorted_app_1_elem_of _ acc (b :: rest) a b Hs); [exact Ha|left]. }
  intros H. apply (G []). exact H.
Qed.

Lemma sort_values_last (df : list Bar) : df <> [] -> is_Some (last (sort_values df)).
Proof.
  intros H. apply last_is_Some. intros E.
  apply (f_equal length) in E. rewrite sort_values_length in E.
  destruct df; [contradiction|discriminate].
Qed.

Lemma iloc_last_map {A B : Type} (f : A -> B) (l : list A) :
  iloc_last (map f l) = match last l with Some a => Ok (f a) | None => Raise IndexError end.
Proof.
  unfold iloc_last. change (map f l) with (f <$> l). rewrite fmap_last.
  destruct (last l); reflexivity.
Qed.

(** ** The win count raises nothing on complete intents *)

Lemma win_trades_total (ts : list executed) :
  Forall keyed ts -> exists wins, win_trades ts = Ok wins.
Proof.
  induction 1 as [|e rest [[s Hs] [p Hp]] _ [ws IH]]; [exists []; reflexivity|].
  cbn. unfold is_win. rewrite Hs, Hp, IH.
  destruct (String.eqb s "sell"); cbn; eexists; reflexivity.
Qed.

Lemma step_outcome_keyed (l b : Q) (st st' : ledger) (tr : Trade.t) :
  complete tr -> Forall keyed (trades st) -> step_outcome l b st tr st' ->
  Forall keyed (trades st').
Proof.
  intros [_ Hp] H Ho. destruct Ho as [tm Ht Hside _|tm Ht Hside _| | |]; try assumption.
  - cbn. apply Forall_app. split; [exact H|]. constructor; [|constructor].
    split; cbn; [rewrite Hside; eexists; reflexivity|exact Hp].
  - cbn. apply Forall_app. split; [exact H|]. constructor; [|constructor].
    split; cbn; [rewrite Hside; eexists; reflexivity|exact Hp].
Qed.

Lemma complete_has_time (intents : list Trade.t) :
  Forall complete intents -> Forall has_time intents.
Proof. intros H. eapply Forall_impl; [exact H|]. intros tr [Ht _]. exact Ht. Qed.

Lemma run_backtest_total (strategy_fn : strategy) (data_csv : list Bar)
    (latency_ms starting_cash slippage_bps : Q) :
  data_csv <> [] ->
  Forall complete (strategy_fn (sort_values data_csv)) ->
  exists r, run_backtest strategy_fn data_csv latency_ms starting_cash slippage_bps = Ok r.
Proof.
  intros Hne Hc. rewrite run_backtest_unfold.
  destruct (run_loop_total latency_ms slippage_bps (strategy_fn (sort_values data_csv))
              (init_ledger starting_cash) (complete_has_time _ Hc)) as (st & Hrun).
  rewrite Hrun. cbn.
  rewrite iloc_last_map. destruct (sort_values_last data_csv Hne) as (bar & ->). cbn.
  destruct (win_trades_total (trades st)) as (wins & ->); [|eexists; reflexivity].
  apply (run_loop_preserves latency_ms slippage_bps (fun s => Forall keyed (trades s)) complete)
    with (intents := strategy_fn (sort_values data_csv)) (st := init_ledger starting_cash);
    try assumption.
  - intros s tr s'. apply step_outcome_keyed.
  - constructor.
Qed.

(** C7.  For every run over a non-empty bar series: when the run returns,
    its result reports [equity = cash + position * last_price] and
    [pnl = equity - starting_cash], each rounded to two places, where
    [cash] and [position] are those of the ledger after the last intent and
    [last_price] is the close of the last bar of the frame; and the run does
    return when every intent is complete. *)
Theorem terminal_valuation (strategy_fn : strategy) (data_csv : list Bar)
    (latency_ms starting_cash slippage_bps : Q) :
  data_csv <> [] ->
  (forall r,
      run_backtest strategy_fn data_csv latency_ms starting_cash slippage_bps = Ok r ->
      exists st bar,
        run_loop latency_ms slippage_bps (init_ledger starting_cash)
          (strategy_fn (sort_values data_csv)) = Ok st /\
        last (sort_values data_csv) = Some bar /\
        let equity := cash st + position st * close bar in
        r !! "final_equity" = Some (VFloat (py_round equity 2)) /\
        r !! "pnl" = Some (VFloat (py_round (equity - starting_cash) 2))) /\
  (Forall complete (strategy_fn (sort_values data_csv)) ->
   exists r, run_backtest strategy_fn data_csv latency_ms starting_cash slippage_bps = Ok r).
Proof.
  intros Hne. split; [|apply run_backtest_total; exact Hne].
  intros r H. apply run_backtest_inv in H as (st & lp & wins & Hrun & Hlast & _ & ->).
  rewrite iloc_last_map in Hlast.
  destruct (last (sort_values data_csv)) as [bar|]; [|discriminate].
  injection Hlast as <-. exists st, bar. split; [exact Hrun|]. split; [reflexivity|].
  cbn zeta. split; [apply summary_final_equity|apply summary_pnl].
Qed.

Lemma terminal_valuation_witness :
  exists r,
    run_backtest scen_strategy scen_bars 0 1000 0 = Ok r /\
    r !! "final_equity" = Some (VFloat 998) /\
    r !! "pnl" = Some (VFloat (-2)).
Proof.
  assert (Hne : scen_bars <> []) by discriminate.
  destruct (terminal_valuation scen_strategy scen_bars 0 1000 0 Hne) as [Hval Htot].
  destruct Htot as (r & Hr).
  { repeat constructor; eexists; reflexivity. }
  exists r. split; [exact Hr|].
  destruct (Hval r Hr) as (st & bar & Hrun & Hlast & Heq & Hpnl).
  vm_compute in Hrun. injection Hrun as <-.
  vm_compute in Hlast. injection Hlast as <-.
  split; [rewrite Heq|rewrite Hpnl]; reflexivity.
Defined.

(** ** The fields of the result *)

(** C3 (amended).  For every successful run the returned dict has exactly
    the keys pnl, final_equity, cash, position, total_trades, win_rate and
    trades: it has no sharpe_ratio and no max_drawdown.  Those two are the
    keys of the dict of [compute_metrics], computed from an equity curve
    given by its caller; [run_backtest] builds no equity curve and does not
    call it. *)
Theorem result_fields (strategy_fn : strategy) (data_csv : list Bar)
    (latency_ms starting_cash slippage_bps : Q) (r : gmap string value) :
  run_backtest strategy_fn data_csv latency_ms starting_cash slippage_bps = Ok r ->
  dom r = backtest_keys /\
  r !! "sharpe_ratio" = None /\
  r !! "max_drawdown" = None /\
  forall (sqrtQ : Q -> Q) (equity_curve : list Q),
    dom (compute_metrics sqrtQ equity_curve) = metrics_keys.
Proof.
  intros H. apply run_backtest_inv in H as (st & lp & wins & _ & _ & _ & ->).
  split; [apply summary_dom|].
  split; [apply summary_no_sharpe_ratio|].
  split; [apply summary_no_max_drawdown|].
  intros sqrtQ curve. unfold compute_metrics, metrics_keys.
  rewrite !dom_insert_L, dom_empty_L. set_solver.
Qed.

Lemma result_fields_witness :
  exists r,
    run_backtest scen_strategy scen_bars 0 1000 0 = Ok r /\
    dom r = backtest_keys /\ r !! "sharpe_ratio" = None.
Proof.
  eexists. split; [eval_run|].
  refine (let H := result_fields scen_strategy scen_bars 0 1000 0 _ _ in
          conj (proj1 H) (proj1 (proj2 H))).
  eval_run.
Defined.

(** C3, as stated, fails: the result of the worked example has neither a
    sharpe_ratio nor a max_drawdown. *)
Lemma result_fields_counterexample :
  exists r,
    run_backtest scen_strategy scen_bars 0 1000 0 = Ok r /\
    r !! "total_trades" = Some (VInt 2) /\
    r !! "sharpe_ratio" = None /\
    r !! "max_drawdown" = None.
Proof.
  eexists. split; [eval_run|]. split; [|split].
  - rewrite summary_total_trades. reflexivity.
  - apply summary_no_sharpe_ratio.
  - apply summary_no_max_drawdown.
Qed.

(** ** The win rate *)

(** C1, at a profitable round trip (bought at 100, sold at 110, default
    slippage of one basis point): the Sell executes at 109.989, above the
    100 of its Buy, so that the one round trip is won and the win rate of
    the specification is 100; the reported win_rate is 0, because the code
    compares the execution price of the Sell with the price of the Sell
    itself. *)
Theorem win_rate_of_profitable_round_trip :
  exists r ts,
    run_backtest profit_strategy scen_bars
      default_latency_ms default_starting_cash default_slippage_bps = Ok r /\
    r !! "total_trades" = Some (VInt 2) /\
    r !! "trades" = Some (VTrades ts) /\
    py_round (spec_win_rate ts) 2 = 100 /\
    r !! "win_rate" = Some (VFloat 0).
Proof.
  eexists. eexists. split; [eval_run|].
  split; [rewrite summary_total_trades; reflexivity|].
  split; [apply summary_trades|].
  split; [vm_compute; reflexivity|].
  rewrite summary_win_rate. vm_compute. reflexivity.
Qed.

(** Rounding does not see the representation of a rational. *)
Lemma round_half_even_proper (q q' : Q) : q == q' -> round_half_even q = round_half_even q'.
Proof.
  intros H. unfold round_half_even.
  rewrite <- (Qfloor_comp q q' H).
  assert (E : Qcompare (q - inject_Z (Qfloor q)) (1 # 2)
              = Qcompare (q' - inject_Z (Qfloor q)) (1 # 2)).
  { apply Qcompare_comp; [|reflexivity]. unfold Qminus. apply Qplus_comp; [exact H|reflexivity]. }
  rewrite E. reflexivity.
Qed.

Lemma py_round_proper (q q' : Q) (ndigits : nat) :
  q == q' -> py_round q ndigits = py_round q' ndigits.
Proof.
  intros H. unfold py_round. destruct ndigits as [|n].
  - rewrite (round_half_even_proper q q' H). reflexivity.
  - set (k := inject_Z (Z.pos (10 ^ Pos.of_nat (S n)))).
    rewrite (round_half_even_proper (q * k) (q' * k)); [reflexivity|].
    apply Qmult_comp; [exact H|reflexivity].
Qed.

Lemma win_rate_of_no_win (total : nat) : win_rate_of 0 total == 0.
Proof.
  unfold win_rate_of. destruct (2 <=? total)%nat; [|reflexivity].
  unfold Qdiv. cbn [length Z.of_nat inject_Z]. ring.
Qed.

(** With a non-negative slippage and non-negative prices no Sell is ever
    counted as a win, whatever it was bought at: the reported win rate is
    0 on every such run. *)
Lemma is_win_adverse (l b : Q) (e : executed) (w : bool) :
  0 <= b -> 0 <= Trade.get_price (intent e) ->
  priced_as_computed l b e -> is_win e = Ok w -> w = false.
Proof.
  intros Hb Hp [_ Hpr] Hw. unfold is_win in Hw.
  destruct (Trade.side (intent e)) as [s|] eqn:Es; [|discriminate].
  destruct (String.eqb s "sell") eqn:Esell; [|congruence].
  apply String.eqb_eq in Esell. subst s.
  destruct (Trade.price (intent e)) as [p|] eqn:Ep; [|discriminate].
  injection Hw as <-.
  destruct Hpr as [[Hside _]|[_ Hex]]; [discriminate|].
  unfold Trade.get_price in Hp, Hex. rewrite Ep in Hp, Hex. cbn in Hp, Hex.
  apply negb_false_iff, Qle_bool_iff. rewrite Hex.
  assert (0 <= p * b / 10000).
  { unfold Qdiv. apply Qmult_le_0_compat; [apply Qmult_le_0_compat; assumption|].
    discriminate. }
  lra.
Qed.

Lemma win_trades_adverse (l b : Q) (ts wins : list executed) :
  0 <= b ->
  Forall (fun e => 0 <= Trade.get_price (intent e)) ts ->
  Forall (priced_as_computed l b) ts ->
  win_trades ts = Ok wins -> wins = [].
Proof.
  intros Hb Hp. revert wins. induction Hp as [|e rest He _ IH]; intros wins Hpr Hw.
  - injection Hw as <-. reflexivity.
  - inversion Hpr as [|? ? Hpe Hprest]; subst. cbn in Hw.
    destruct (is_win e) as [w|] eqn:Ew; [|discriminate]. cbn in Hw.
    destruct (win_trades rest) as [ws|] eqn:Ews; [|discriminate]. cbn in Hw.
    rewrite (is_win_adverse l b e w Hb He Hpe Ew) in Hw.
    injection Hw as <-. apply IH; [exact Hprest|reflexivity].
Qed.

Lemma step_outcome_prices (l b : Q) (st st' : ledger) (tr : Trade.t) :
  0 <= Trade.get_price tr ->
  Forall (fun e => 0 <= Trade.get_price (intent e)) (trades st) ->
  step_outcome l b st tr st' ->
  Forall (fun e => 0 <= Trade.get_price (intent e)) (trades st').
Proof.
  intros Hp H Ho. destruct Ho; try assumption.
  - cbn. apply Forall_app. split; [exact H|]. repeat constructor. exact Hp.
  - cbn. apply Forall_app. split; [exact H|]. repeat constructor. exact Hp.
Qed.

(** X1.  With a slippage and intent prices that are not negative, the reported
    win_rate of every run is 0. *)
Lemma win_rate_zero_under_adverse_slippage (strategy_fn : strategy)
    (data_csv : list Bar) (latency_ms starting_cash slippage_bps : Q)
    (r : gmap string value) :
  0 <= slippage_bps ->
  Forall (fun tr => 0 <= Trade.get_price tr) (strategy_fn (sort_values data_csv)) ->
  run_backtest strategy_fn data_csv latency_ms starting_cash slippage_bps = Ok r ->
  r !! "win_rate" = Some (VFloat 0).
Proof.
  intros Hb Hp H. apply run_backtest_inv in H as (st & lp & wins & Hrun & _ & Hw & ->).
  assert (wins = []) as ->.
  { apply (win_trades_adverse latency_ms slippage_bps (trades st) wins Hb); [| |exact Hw].
    - apply (run_loop_preserves latency_ms slippage_bps
               (fun s => Forall (fun e => 0 <= Trade.get_price (intent e)) (trades s))
               (fun tr => 0 <= Trade.get_price tr))
        with (intents := strategy_fn (sort_values data_csv))
             (st := init_ledger starting_cash); try assumption.
      + intros s tr s'. apply step_outcome_prices.
      + constructor.
    - apply (run_loop_priced latency_ms slippage_bps (strategy_fn (sort_values data_csv))
               (init_ledger starting_cash) st); [constructor|exact Hrun]. }
  destruct (summary_lookup starting_cash st lp []) as (_ & _ & _ & _ & _ & Hwr & _).
  rewrite Hwr. cbn [length].
  rewrite (py_round_proper _ 0 2 (win_rate_of_no_win (length (trades st)))).
  reflexivity.
Qed.

(** ** Parameters that are not validated *)





(** ** Malformed intents *)





(** A Sell executed without a 'price' key is an exception of its own: the
    loop fills it at price 0, and the win count then raises at
    [t['price']]. *)
Lemma sell_without_price_raises_late :
  run_loop 0 1 (init_ledger 1000) [Trade.mk (Some 1) (Some "sell") None (Some 0)]
  = Ok {| cash := 1000 + (0 - 0 * (1 / 10000)) * 0;
          position := 0 - 0;
          trades := [mk_executed (Trade.mk (Some 1) (Some "sell") None (Some 0))
                       (1 + 0) (0 - 0 * (1 / 10000))] |} /\
  run_backtest (fun _ => [Trade.mk (Some 1) (Some "sell") None (Some 0)])
    scen_bars 0 1000 1 = Raise (KeyError "price").
Proof. split; reflexivity. Qed.

(** ** The Sharpe ratio *)

Section Sharpe.

Variable sqrtQ : Q -> Q.

Lemma sharpe_lookup (equity_curve : list Q) :
  compute_metrics sqrtQ equity_curve !! "sharpe_ratio" =
  Some (F.round
          match dropna (pct_change (map Fin equity_curve)) with
          | [] => Fin 0
          | returns =>
              F.mul (F.div (mean returns) (std sqrtQ returns)) (fsqrt sqrtQ (Fin 252))
          end 3).
Proof.
  unfold compute_metrics. rewrite lookup_insert_eq.
  destruct (dropna (pct_change (map Fin equity_curve))); reflexivity.
Qed.

(** X2.  A curve of fewer than two points has no return: its Sharpe ratio is
    reported as 0. *)
Lemma sharpe_of_short_curve (equity_curve : list Q) :
  (length equity_curve < 2)%nat ->
  compute_metrics sqrtQ equity_curve !! "sharpe_ratio" = Some (Fin 0).
Proof.
  intros H. rewrite sharpe_lookup.
  destruct equity_curve as [|x [|y rest]]; [reflexivity|reflexivity|cbn in H; lia].
Qed.

Lemma removelast_replicate {A : Type} (x : A) (n : nat) :
  removelast (replicate (S n) x) = replicate n x.
Proof. induction n as [|n IH]; [reflexivity|]. cbn in *. rewrite IH. reflexivity. Qed.

Lemma dropna_replicate (q : Q) (n : nat) :
  dropna (replicate n (Fin q)) = replicate n (Fin q).
Proof.
  induction n as [|n IH]; [reflexivity|].
  unfold dropna in *. rewrite replicate_S, filter_cons_True by reflexivity.
  rewrite IH. reflexivity.
Qed.

Lemma returns_of_flat_curve (c : Q) (n : nat) :
  ~ c == 0 ->
  dropna (pct_change (map Fin (flat_curve c (S n)))) = replicate n (Fin (c / c - 1)).
Proof.
  intros Hc. unfold flat_curve.
  change (map Fin (replicate (S n) c)) with (Fin <$> replicate (S n) c).
  rewrite fmap_replicate. unfold pct_change, shift.
  rewrite removelast_replicate. cbn [replicate zip_with].
  rewrite zip_with_replicate.
  assert (E : F.sub (F.div (Fin c) (Fin c)) (Fin 1) = Fin (c / c - 1)).
  { cbn. destruct (Qeq_bool c 0) eqn:Ez; [|reflexivity].
    apply Qeq_bool_iff in Ez. contradiction. }
  rewrite E. unfold dropna at 1. rewrite filter_cons_False by (cbn; congruence).
  apply dropna_replicate.
Qed.

Lemma fsum_from_zero (s : list fnum) (acc : fnum) :
  Forall is_zero s -> is_zero acc -> is_zero (fold_left F.add s acc).
Proof.
  intros H. revert acc. induction H as [|x rest (q & -> & Hq) _ IH]; intros acc Hacc.
  - exact Hacc.
  - cbn [fold_left]. apply IH. destruct Hacc as (a & -> & Ha).
    exists (a + q). split; [reflexivity|]. rewrite Ha, Hq. reflexivity.
Qed.

Lemma fsum_zero (s : list fnum) : Forall is_zero s -> is_zero (fsum s).
Proof. intros H. apply fsum_from_zero; [exact H|]. exists 0. split; reflexivity. Qed.

Lemma of_nat_pos (n : nat) : ~ inject_Z (Z.of_nat (S n)) == 0.
Proof. unfold Qeq. cbn. lia. Qed.

Lemma div_zero_by_count (a : fnum) (n : nat) : is_zero a -> is_zero (F.div a (of_nat (S n))).
Proof.
  intros (q & -> & Hq). unfold of_nat. cbn [F.div].
  destruct (Qeq_bool (inject_Z (Z.of_nat (S n))) 0) eqn:E.
  - apply Qeq_bool_iff in E. destruct (of_nat_pos n E).
  - eexists. split; [reflexivity|]. rewrite Hq.
    field. apply of_nat_pos.
Qed.

Lemma mean_zero (s : list fnum) : s <> [] -> Forall is_zero s -> is_zero (mean s).
Proof.
  intros Hne H. unfold mean. destruct s as [|x rest]; [contradiction|].
  cbn [length]. apply div_zero_by_count, fsum_zero. exact H.
Qed.

Lemma std_of_zeros (s : list fnum) :
  Forall is_zero s -> std sqrtQ s = NaN \/ std sqrtQ s = Fin 0.
Proof.
  intros H. unfold std. destruct (length s <=? 1)%nat eqn:El; [left; reflexivity|right].
  apply Nat.leb_gt in El.
  destruct (length s) as [|[|k]] eqn:Elen; try lia.
  assert (Hne : s <> []) by (intros ->; discriminate).
  destruct (mean_zero s Hne H) as (mu & Emu & Hmu). rewrite Emu.
  replace (S (S k) - 1)%nat with (S k) by lia.
  destruct (div_zero_by_count
              (fsum (map (fun x => F.mul (F.sub (Fin mu) x) (F.sub (Fin mu) x)) s)) k)
    as (v & Ev & Hv).
  { apply fsum_zero. apply Forall_forall. intros y Hy.
    apply list_elem_of_In, in_map_iff in Hy as (x & <- & Hx).
    apply list_elem_of_In in Hx.
    destruct (proj1 (Forall_forall _ _) H x Hx) as (q & -> & Hq).
    eexists. split; [reflexivity|]. rewrite Hmu, Hq. reflexivity. }
  rewrite Ev. cbn [fsqrt].
  rewrite (proj2 (Qeq_bool_iff v 0) Hv). reflexivity.
Qed.

(** X3.  On a flat curve of two points or more, at a value other than 0, every
    return is 0: the mean is 0, the standard deviation is [nan] (one return)
    or 0 (several), and their quotient is [nan]. *)
Lemma sharpe_of_flat_curve_general (c : Q) (n : nat) :
  ~ c == 0 ->
  compute_metrics sqrtQ (flat_curve c (S (S n))) !! "sharpe_ratio" = Some NaN.
Proof.
  intros Hc. rewrite sharpe_lookup, (returns_of_flat_curve c (S n) Hc).
  set (returns := replicate (S n) (Fin (c / c - 1))).
  assert (Hz : Forall is_zero returns).
  { apply Forall_replicate. eexists. split; [reflexivity|]. field. exact Hc. }
  assert (Hne : returns <> []) by discriminate.
  destruct (mean_zero returns Hne Hz) as (mu & Emu & Hmu).
  assert (Hq : F.div (mean returns) (std sqrtQ returns) = NaN).
  { rewrite Emu. destruct (std_of_zeros returns Hz) as [-> | ->]; [reflexivity|].
    cbn. apply Qeq_alt in Hmu. rewrite Hmu. reflexivity. }
  clearbody returns. destruct returns as [|r0 rs]; [contradiction|].
  lazy beta zeta iota. rewrite Hq. reflexivity.
Qed.

End Sharpe.

(** C8, at flat curves: on the curves [100, 100] and [100, 100, 100] the
    reported Sharpe ratio is [nan], for want of a guard on a standard
    deviation that is 0 or undefined; the specification has it 0. *)
Theorem sharpe_of_flat_curve (sqrtQ : Q -> Q) :
  compute_metrics sqrtQ [100; 100] !! "sharpe_ratio" = Some NaN /\
  compute_metrics sqrtQ [100; 100; 100] !! "sharpe_ratio" = Some NaN.
Proof. split; rewrite sharpe_lookup; vm_compute; reflexivity. Qed.

(** ** Worked examples *)

(** The scenario of three bars: Buy at 101, Sell at 99, no slippage, no
    latency, a starting cash of 1000. *)
Example scenario_round_trip :
  exists r,
    run_backtest scen_strategy scen_bars 0 1000 0 = Ok r /\
    r !! "cash" = Some (VFloat 998) /\
    r !! "position" = Some (VFloat 0) /\
    r !! "final_equity" = Some (VFloat 998) /\
    r !! "pnl" = Some (VFloat (-2)) /\
    r !! "total_trades" = Some (VInt 2) /\
    r !! "win_rate" = Some (VFloat 0).
Proof.
  eexists. split; [eval_run|].
  rewrite summary_cash, summary_position, summary_final_equity, summary_pnl,
    summary_total_trades, summary_win_rate.
  repeat split; vm_compute; reflexivity.
Qed.

(** A starting cash of 50 and a Buy that costs 101: rejected. *)
Example scenario_rejected_buy :
  exists r,
    run_backtest (fun _ => [Trade.mk (Some 1) (Some "buy") (Some 101) (Some 1)])
      scen_bars 0 50 0 = Ok r /\
    r !! "cash" = Some (VFloat 50) /\
    r !! "position" = Some (VFloat 0) /\
    r !! "total_trades" = Some (VInt 0).
Proof.
  eexists. split; [eval_run|].
  rewrite summary_cash, summary_position, summary_total_trades.
  repeat split; vm_compute; reflexivity.
Qed.

(** The sample strategy on the three bars, with the defaults of the demo: it
    buys at the open of the second bar and sells at the close of the third. *)
Example scenario_simple_momentum :
  simple_momentum scen_bars =
    [Trade.mk (Some 1) (Some "buy") (Some 101) (Some 1);
     Trade.mk (Some 2) (Some "sell") (Some 99) (Some 1)] /\
  exists r,
    run_backtest simple_momentum scen_bars 3 default_starting_cash default_slippage_bps
      = Ok r /\
    r !! "total_trades" = Some (VInt 2) /\
    r !! "pnl" = Some (VFloat (-101 # 50)) /\
    r !! "win_rate" = Some (VFloat 0).
Proof.
  split; [reflexivity|].
  eexists. split; [eval_run|].
  rewrite summary_total_trades, summary_pnl, summary_win_rate.
  repeat split; vm_compute; reflexivity.
Qed.

(** The frame is sorted before its last close is read. *)
Example scenario_unsorted_bars :
  sort_values [mk_bar 2 99 99; mk_bar 0 100 100; mk_bar 1 101 101] = scen_bars /\
  iloc_last (map close (sort_values [mk_bar 2 99 99; mk_bar 0 100 100; mk_bar 1 101 101]))
  = Ok 99.
Proof. split; reflexivity. Qed.

(** An empty frame has no last close. *)
Example scenario_no_bars :
  run_backtest scen_strategy [] 0 1000 0 = Raise IndexError.
Proof. reflexivity. Qed.

(** Rounding at the reporting boundary: ties go to the even neighbour. *)
Example scenario_rounding :
  py_round (5 # 2) 0 = 2 /\ py_round (7 # 2) 0 = 4 /\ py_round (-5 # 2) 0 = -2 /\
  py_round (1005 # 1000) 2 = 1 /\ py_round (-1 # 3) 2 = -33 # 100.
Proof. repeat split; reflexivity. Qed.

(** * Further properties of the code *)

(** ** The trades a run records *)






(** ** The ledger accounts for the trades *)




(** ** The latency *)





(** ** What makes a run fail *)





(** X8.  Without a row in the CSV the run fails with [IndexError], after the
    strategy has been run, whenever every intent carries a time. *)
Theorem no_bars_is_an_error (strategy_fn : strategy)
    (latency_ms starting_cash slippage_bps : Q) :
  Forall has_time (strategy_fn []) ->
  run_backtest strategy_fn [] latency_ms starting_cash slippage_bps = Raise IndexError.
Proof.
  intros H. rewrite run_backtest_unfold. cbn [sort_values fold_left].
  destruct (run_loop_total latency_ms slippage_bps (strategy_fn [])
              (init_ledger starting_cash) H) as (st & ->).
  reflexivity.
Qed.

Lemma no_bars_is_an_error_witness :
  run_backtest scen_strategy [] 3 1000 1 = Raise IndexError.
Proof.
  apply (no_bars_is_an_error scen_strategy 3 1000 1).
  repeat constructor; eexists; reflexivity.
Defined.

(** X9.  A strategy that yields nothing leaves the account as it was: the
    result has the starting cash for cash and for final_equity (rounded), a
    position and a pnl of 0, no trade and a win_rate of 0. *)
Theorem idle_strategy (strategy_fn : strategy) (data_csv : list Bar)
    (latency_ms starting_cash slippage_bps : Q) :
  data_csv <> [] ->
  strategy_fn (sort_values data_csv) = [] ->
  exists r,
    run_backtest strategy_fn data_csv latency_ms starting_cash slippage_bps = Ok r /\
    r !! "cash" = Some (VFloat (py_round starting_cash 2)) /\
    r !! "final_equity" = Some (VFloat (py_round starting_cash 2)) /\
    r !! "position" = Some (VFloat 0) /\
    r !! "pnl" = Some (VFloat 0) /\
    r !! "total_trades" = Some (VInt 0) /\
    r !! "win_rate" = Some (VFloat 0) /\
    r !! "trades" = Some (VTrades []).
Proof.
  intros Hne Hs. destruct (sort_values_last data_csv Hne) as (bar & Hlast).
  exists (summary starting_cash (init_ledger starting_cash) (close bar) []).
  split.
  - apply run_backtest_eval; [rewrite Hs; reflexivity| |reflexivity].
    rewrite iloc_last_map, Hlast. reflexivity.
  - rewrite summary_cash, summary_final_equity, summary_position, summary_pnl,
      summary_total_trades, summary_win_rate, summary_trades.
    cbn [init_ledger cash position trades].
    rewrite (py_round_proper (starting_cash + 0 * close bar) starting_cash 2) by ring.
    rewrite (py_round_proper (starting_cash + 0 * close bar - starting_cash) 0 2) by ring.
    repeat split; reflexivity.
Qed.

Lemma idle_strategy_witness :
  exists r,
    run_backtest (fun _ => []) scen_bars 3 1000 1 = Ok r /\
    r !! "cash" = Some (VFloat 1000) /\ r !! "pnl" = Some (VFloat 0).
Proof.
  destruct (idle_strategy (fun _ => []) scen_bars 3 1000 1)
    as (r & Hr & Hc & _ & _ & Hp & _); [discriminate|reflexivity|].
  exists r. split; [exact Hr|]. split; [exact Hc|exact Hp].
Defined.

(** ** Slippage *)

(** X10.  Buying and selling back the same size at the same intent price
    costs twice the slippage: when the Buy is affordable and the position is
    not negative, both trades are executed, the position is back where it
    was and the cash is lower by [2 * (price * slippage_bps / 10000) * size]. *)
Theorem round_trip_costs_twice_the_slippage (latency_ms slippage_bps : Q)
    (st : ledger) (buy sell : Trade.t) :
  has_time buy -> has_time sell ->
  Trade.side buy = Some "buy" -> Trade.side sell = Some "sell" ->
  Trade.get_price sell = Trade.get_price buy ->
  Trade.get_size sell = Trade.get_size buy ->
  cost_of slippage_bps buy <= cash st ->
  0 <= position st ->
  exists st',
    run_loop latency_ms slippage_bps st [buy; sell] = Ok st' /\
    length (trades st') = S (S (length (trades st))) /\
    position st' == position st /\
    cash st' ==
      cash st - 2 * (Trade.get_price buy * slippage_bps / 10000) * Trade.get_size buy.
Proof.
  intros [tb Htb] [ts Hts] Hb Hs Hp Hz Hcost Hpos.
  unfold run_loop, step, Trade.item_time, Trade.get_side.
  rewrite Htb. cbn [mbind res_bind].
  rewrite (proj2 (is_side_true "buy" _) Hb).
  unfold cost_of, Trade.get_side in Hcost.
  rewrite (proj2 (Qle_bool_iff _ _) Hcost). cbn [mbind res_bind].
  rewrite Hts. cbn [mbind res_bind cash position trades].
  assert (Hnb : is_side "buy" (Trade.side sell) = false) by (rewrite Hs; reflexivity).
  rewrite Hnb, (proj2 (is_side_true "sell" _) Hs).
  assert (Hle : Qle_bool (Trade.get_size sell) (position st + Trade.get_size buy) = true).
  { apply Qle_bool_iff. rewrite Hz. lra. }
  rewrite Hle. eexists. split; [reflexivity|].
  cbn [cash position trades]. split; [|split].
  - rewrite !length_app. cbn. lia.
  - rewrite Hz. ring.
  - rewrite Hp, Hz, (exec_price_of_buy _ _ _ Hb), (exec_price_of_sell _ _ _ Hs). ring.
Qed.

Lemma round_trip_costs_twice_the_slippage_witness :
  exists st',
    run_loop 0 1 (init_ledger 1000)
      [Trade.mk (Some 1) (Some "buy") (Some 100) (Some 2);
       Trade.mk (Some 2) (Some "sell") (Some 100) (Some 2)] = Ok st' /\
    cash st' == 1000 - (4 # 100).
Proof.
  destruct (round_trip_costs_twice_the_slippage 0 1 (init_ledger 1000)
              (Trade.mk (Some 1) (Some "buy") (Some 100) (Some 2))
              (Trade.mk (Some 2) (Some "sell") (Some 100) (Some 2)))
    as (st' & Hrun & _ & _ & Hc);
    try reflexivity; try (eexists; reflexivity); try discriminate.
  exists st'. split; [exact Hrun|]. rewrite Hc. vm_compute. reflexivity.
Defined.

Lemma win_rate_zero_under_adverse_slippage_witness :
  exists r,
    run_backtest profit_strategy scen_bars 0 100000 1 = Ok r /\
    r !! "win_rate" = Some (VFloat 0).
Proof.
  pose proof (run_backtest_eval profit_strategy scen_bars 0 100000 1 _ _ _
                ltac:(vm_compute; reflexivity) ltac:(vm_compute; reflexivity)
                ltac:(vm_compute; reflexivity)) as E.
  eexists. split; [exact E|].
  apply (win_rate_zero_under_adverse_slippage profit_strategy scen_bars 0 100000 1);
    [discriminate| |exact E].
  repeat constructor; discriminate.
Defined.

(** ** The sorted frame *)

Lemma insert_bar_perm (b : Bar) (df : list Bar) : insert_bar b df ≡ₚ b :: df.
Proof.
  induction df as [|b' rest IH]; [reflexivity|].
  cbn. destruct (_ && _); [reflexivity|].
  rewrite IH. apply Permutation_swap.
Qed.

Lemma sort_values_perm (df : list Bar) : sort_values df ≡ₚ df.
Proof.
  unfold sort_values.
  assert (G : forall acc, fold_left (fun acc b => insert_bar b acc) df acc ≡ₚ acc ++ df).
  { induction df as [|b rest IH]; intros acc; cbn [fold_left].
    - rewrite app_nil_r. reflexivity.
    - rewrite IH, insert_bar_perm. apply Permutation_middle. }
  apply (G []).
Qed.

Lemma insert_bar_ascending (b : Bar) (df : list Bar) :
  ascending df -> ascending (insert_bar b df).
Proof.
  unfold ascending. induction 1 as [|b' rest Hs IH Hall]; cbn.
  - repeat constructor.
  - destruct (Qle_bool (timestamp b) (timestamp b')) eqn:E1; cbn.
    + destruct (Qeq_bool (timestamp b) (timestamp b')) eqn:E2; cbn.
      * constructor; [exact IH|]. rewrite insert_bar_perm. constructor; [|exact Hall].
        apply Qeq_bool_iff in E2. rewrite E2. apply Qle_refl.
      * apply Qle_bool_iff in E1. constructor; [constructor; assumption|].
        constructor; [exact E1|].
        eapply Forall_impl; [exact Hall|]. intros x Hx. cbn in *.
        apply (Qle_trans _ _ _ E1 Hx).
    + constructor; [exact IH|]. rewrite insert_bar_perm. constructor; [|exact Hall].
      apply Qle_bool_false in E1. apply Qlt_le_weak. exact E1.
Qed.

Lemma sort_values_is_ascending (df : list Bar) : ascending (sort_values df).
Proof.
  unfold sort_values.
  assert (G : forall acc, ascending acc ->
                          ascending (fold_left (fun acc b => insert_bar b acc) df acc)).
  { induction df as [|b rest IH]; intros acc Hacc; cbn [fold_left]; [exact Hacc|].
    apply IH, insert_bar_ascending, Hacc. }
  apply G. constructor.
Qed.

(** X11.  The frame handed to the strategy and used for the last close holds the
    rows of the CSV in ascending order of timestamp, whatever their order in
    the file; a CSV whose timestamps are strictly increasing is left as it
    is. *)
Theorem frame_is_sorted (data_csv : list Bar) :
  ascending (sort_values data_csv) /\
  sort_values data_csv ≡ₚ data_csv /\
  (strictly_ascending data_csv -> sort_values data_csv = data_csv).
Proof.
  split; [apply sort_values_is_ascending|]. split; [apply sort_values_perm|].
  intros H. apply sort_values_ascending. unfold ascending, strictly_ascending in *.
  induction H as [|b rest _ IH Hall]; constructor; [exact IH|].
  eapply Forall_impl; [exact Hall|]. intros x Hx. apply Qlt_le_weak. exact Hx.
Qed.

Lemma last_of_ascending (df : list Bar) (bar : Bar) :
  ascending df -> last df = Some bar ->
  forall b, b ∈ df -> timestamp b <= timestamp bar.
Proof.
  intros Hs Hlast b Hb. apply last_Some in Hlast as (pre & ->).
  apply elem_of_app in Hb as [Hb|Hb].
  - apply (StronglySorted_app_1_elem_of _ pre [bar] b bar Hs Hb). left.
  - apply list_elem_of_singleton in Hb. subst b. apply Qle_refl.
Qed.

(** X12.  The final valuation is made at a row of the latest timestamp of
    the CSV, wherever that row stands in the file. *)
Theorem valuation_at_latest_bar (strategy_fn : strategy) (data_csv : list Bar)
    (latency_ms starting_cash slippage_bps : Q) (r : gmap string value) :
  run_backtest strategy_fn data_csv latency_ms starting_cash slippage_bps = Ok r ->
  exists st bar,
    run_loop latency_ms slippage_bps (init_ledger starting_cash)
      (strategy_fn (sort_values data_csv)) = Ok st /\
    bar ∈ data_csv /\
    (forall b, b ∈ data_csv -> timestamp b <= timestamp bar) /\
    r !! "final_equity"
    = Some (VFloat (py_round (cash st + position st * close bar) 2)).
Proof.
  intros H. apply run_backtest_inv in H as (st & lp & wins & Hrun & Hlast & _ & ->).
  rewrite iloc_last_map in Hlast.
  destruct (last (sort_values data_csv)) as [bar|] eqn:El; [|discriminate].
  injection Hlast as <-. exists st, bar. split; [exact Hrun|].
  split; [|split; [|apply summary_final_equity]].
  - rewrite <- (sort_values_perm data_csv). apply last_Some_elem_of. exact El.
  - intros b Hb. apply (last_of_ascending (sort_values data_csv) bar).
    + apply sort_values_is_ascending.
    + exact El.
    + rewrite (sort_values_perm data_csv). exact Hb.
Qed.

Lemma valuation_at_latest_bar_witness :
  exists r,
    run_backtest scen_strategy [mk_bar 2 99 99; mk_bar 0 100 100; mk_bar 1 101 101]
      0 1000 0 = Ok r /\
    r !! "final_equity" = Some (VFloat 998).
Proof.
  pose proof (run_backtest_eval scen_strategy
                [mk_bar 2 99 99; mk_bar 0 100 100; mk_bar 1 101 101] 0 1000 0 _ _ _
                ltac:(vm_compute; reflexivity) ltac:(vm_compute; reflexivity)
                ltac:(vm_compute; reflexivity)) as E.
  destruct (valuation_at_latest_bar _ _ _ _ _ _ E) as (st & bar & _ & _ & _ & _).
  eexists. split; [exact E|]. rewrite summary_final_equity. vm_compute. reflexivity.
Defined.

(** ** Rounding *)

Lemma round_half_even_bounds (q : Q) :
  (round_half_even q = Qfloor q \/ round_half_even q = (Qfloor q + 1)%Z) /\
  -(1 # 2) <= inject_Z (round_half_even q) - q <= 1 # 2.
Proof.
  unfold round_half_even.
  pose proof (Qfloor_le q) as Hlo. pose proof (Qlt_floor q) as Hhi.
  rewrite inject_Z_plus in Hhi. change (inject_Z 1) with 1 in Hhi.
  destruct (Qcompare_spec (q - inject_Z (Qfloor q)) (1 # 2)) as [E|E|E].
  - destruct (Z.even (Qfloor q)).
    + split; [left; reflexivity|]. lra.
    + split; [right; reflexivity|]. rewrite inject_Z_plus. change (inject_Z 1) with 1. lra.
  - split; [left; reflexivity|]. lra.
  - split; [right; reflexivity|]. rewrite inject_Z_plus. change (inject_Z 1) with 1. lra.
Qed.

Lemma round_half_even_mono (q q' : Q) :
  q <= q' -> (round_half_even q <= round_half_even q')%Z.
Proof.
  intros H. pose proof (Qfloor_resp_le q q' H) as Hf.
  destruct (round_half_even_bounds q) as [Hq _].
  destruct (round_half_even_bounds q') as [Hq' _].
  destruct (Z.eq_dec (Qfloor q) (Qfloor q')) as [E|E]; [|lia].
  unfold round_half_even in *. rewrite <- E in *.
  destruct (Qcompare_spec (q - inject_Z (Qfloor q)) (1 # 2)) as [E1|E1|E1];
    destruct (Qcompare_spec (q' - inject_Z (Qfloor q)) (1 # 2)) as [E2|E2|E2];
    try lia; try (exfalso; lra); destruct (Z.even (Qfloor q)); lia.
Qed.

Lemma py_round_value (q : Q) (ndigits : nat) :
  py_round q ndigits
  == inject_Z (round_half_even (q * inject_Z (10 ^ Z.of_nat ndigits)))
     / inject_Z (10 ^ Z.of_nat ndigits).
Proof.
  unfold py_round. destruct ndigits as [|n].
  - rewrite Qred_correct. change (10 ^ Z.of_nat 0)%Z with 1%Z.
    rewrite (round_half_even_proper (q * inject_Z 1) q) by (change (inject_Z 1) with 1; ring).
    change (inject_Z 1) with 1. field.
  - rewrite Qred_correct.
    assert (Ek : (10 ^ Z.of_nat (S n))%Z = Z.pos (10 ^ Pos.of_nat (S n))).
    { rewrite Pos2Z.inj_pow. f_equal. rewrite <- positive_nat_Z.
      rewrite Nat2Pos.id by discriminate. reflexivity. }
    rewrite Ek. rewrite Qmake_Qdiv. reflexivity.
Qed.

Lemma scale_pos (ndigits : nat) : 0 < inject_Z (10 ^ Z.of_nat ndigits).
Proof.
  change 0 with (inject_Z 0). rewrite <- Zlt_Qlt. apply Z.pow_pos_nonneg; lia.
Qed.

Lemma py_round_mono (q q' : Q) (ndigits : nat) :
  q <= q' -> py_round q ndigits <= py_round q' ndigits.
Proof.
  intros H. rewrite !py_round_value.
  pose proof (scale_pos ndigits) as Hk. set (k := inject_Z (10 ^ Z.of_nat ndigits)) in *.
  apply Qmult_le_compat_r; [|apply Qlt_le_weak, Qinv_lt_0_compat; exact Hk].
  rewrite <- Zle_Qle. apply round_half_even_mono.
  apply Qmult_le_compat_r; [exact H|apply Qlt_le_weak; exact Hk].
Qed.

Lemma py_round_error (q : Q) (ndigits : nat) :
  Qabs (py_round q ndigits - q) <= (1 # 2) / inject_Z (10 ^ Z.of_nat ndigits).
Proof.
  rewrite py_round_value.
  pose proof (scale_pos ndigits) as Hk. set (k := inject_Z (10 ^ Z.of_nat ndigits)) in *.
  destruct (round_half_even_bounds (q * k)) as [_ [Hlo Hhi]].
  set (z := inject_Z (round_half_even (q * k))) in *.
  assert (E : z / k - q == (z - q * k) / k) by (field; lra).
  rewrite E. apply Qabs_Qle_condition. split.
  - assert (E2 : - ((1 # 2) / k) == (- (1 # 2)) / k) by (field; lra).
    rewrite E2.
    apply Qmult_le_compat_r; [exact Hlo|apply Qlt_le_weak, Qinv_lt_0_compat; exact Hk].
  - apply Qmult_le_compat_r; [exact Hhi|apply Qlt_le_weak, Qinv_lt_0_compat; exact Hk].
Qed.

(** ** The maximum drawdown *)

Section Drawdown.

Variable sqrtQ : Q -> Q.

Lemma max_drawdown_lookup (equity_curve : list Q) :
  compute_metrics sqrtQ equity_curve !! "max_drawdown" =
  Some (F.round
          (F.mul
             match zip_with (fun e m => F.div (F.sub e m) m)
                     (map Fin equity_curve) (cummax (map Fin equity_curve)) with
             | [] => Fin 0
             | drawdown => fmin drawdown
             end (Fin 100)) 2).
Proof.
  unfold compute_metrics. rewrite lookup_insert_ne by discriminate.
  rewrite lookup_insert_eq.
  destruct (zip_with _ _ _); reflexivity.
Qed.

Lemma drawdown_from (m : Q) (qs : list Q) :
  0 < m -> Forall (Qlt 0) qs ->
  zip_with (fun e m => F.div (F.sub e m) m) (map Fin qs) (cummax_from (Fin m) (map Fin qs))
  = map Fin (drawdowns m qs).
Proof.
  intros Hm H. revert m Hm. induction H as [|x rest Hx _ IH]; intros m Hm; [reflexivity|].
  cbn [map cummax_from drawdowns zip_with F.is_nan F.leb].
  set (m' := if Qle_bool x m then m else x).
  assert (Hm' : 0 < m') by (subst m'; destruct (Qle_bool x m); assumption).
  replace (if Qle_bool x m then Fin m else Fin x) with (Fin m')
    by (subst m'; destruct (Qle_bool x m); reflexivity).
  rewrite (IH m' Hm'). f_equal. cbn [F.sub F.neg F.add F.div].
  destruct (Qeq_bool m' 0) eqn:E; [|reflexivity].
  apply Qeq_bool_iff in E. lra.
Qed.

Lemma drawdown_series (x : Q) (rest : list Q) :
  Forall (Qlt 0) (x :: rest) ->
  zip_with (fun e m => F.div (F.sub e m) m)
    (map Fin (x :: rest)) (cummax (map Fin (x :: rest)))
  = map Fin (drawdowns x (x :: rest)).
Proof.
  intros H. inversion H as [|? ? Hx Hrest]; subst.
  unfold cummax. cbn [map cummax_from drawdowns zip_with F.is_nan].
  rewrite (drawdown_from x rest Hx Hrest).
  assert (E : Qle_bool x x = true) by (apply Qle_bool_iff, Qle_refl).
  rewrite E. f_equal. cbn [F.sub F.neg F.add F.div].
  destruct (Qeq_bool x 0) eqn:E0; [|reflexivity].
  apply Qeq_bool_iff in E0. lra.
Qed.

Lemma dropna_finite (qs : list Q) : dropna (map Fin qs) = map Fin qs.
Proof.
  unfold dropna. induction qs as [|q qs IH]; [reflexivity|].
  cbn [map]. rewrite filter_cons_True by reflexivity. rewrite IH. reflexivity.
Qed.

Lemma fmin_from (a : Q) (qs : list Q) :
  fold_left (fun m x => if F.is_nan m then x else if F.leb x m then x else m)
    (map Fin qs) (Fin a)
  = Fin (least a qs).
Proof.
  unfold least. revert a. induction qs as [|q qs IH]; intros a; [reflexivity|].
  cbn [map fold_left F.is_nan F.leb].
  destruct (Qle_bool q a); apply IH.
Qed.

Lemma fmin_finite (q : Q) (qs : list Q) : fmin (Fin q :: map Fin qs) = Fin (least q qs).
Proof.
  unfold fmin. change (Fin q :: map Fin qs) with (map Fin (q :: qs)).
  rewrite dropna_finite. cbn [map fold_left F.is_nan]. apply fmin_from.
Qed.

Lemma least_keeps (P : Q -> Prop) (a : Q) (qs : list Q) :
  P a -> Forall P qs -> P (least a qs).
Proof.
  unfold least. intros Ha H. revert a Ha.
  induction H as [|q qs Hq _ IH]; intros a Ha; [exact Ha|].
  cbn [fold_left]. destruct (Qle_bool q a); apply IH; assumption.
Qed.

Lemma drawdowns_bounds (m : Q) (qs : list Q) :
  0 < m -> Forall (Qlt 0) qs ->
  Forall (fun d => -1 <= d /\ d <= 0) (drawdowns m qs).
Proof.
  intros Hm H. revert m Hm. induction H as [|x rest Hx _ IH]; intros m Hm; [constructor|].
  cbn [drawdowns]. set (m' := if Qle_bool x m then m else x).
  assert (Hm' : 0 < m' /\ x <= m').
  { subst m'. destruct (Qle_bool x m) eqn:E.
    - apply Qle_bool_iff in E. split; assumption.
    - split; [exact Hx|apply Qle_refl]. }
  destruct Hm' as [Hm' Hxm]. constructor; [|apply IH; exact Hm'].
  split.
  - apply Qle_shift_div_l; [exact Hm'|]. lra.
  - apply Qle_shift_div_r; [exact Hm'|]. lra.
Qed.

Lemma drawdowns_rising (m : Q) (qs : list Q) :
  0 < m -> rising (m :: qs) ->
  Forall (fun d => d == 0) (drawdowns m qs).
Proof.
  unfold rising. revert m. induction qs as [|x rest IH]; intros m Hm Hs; [constructor|].
  cbn [drawdowns]. apply Sorted_inv in Hs as [Hs Hhd]. apply HdRel_inv in Hhd.
  assert (Hx : 0 < x) by lra.
  destruct (Qle_bool x m) eqn:E.
  - apply Qle_bool_iff in E. assert (Exm : x == m) by (apply Qle_antisym; assumption).
    constructor; [field_simplify_eq; lra|].
    apply (IH m Hm). apply Sorted_inv in Hs as [Hs' Hhd'].
    constructor; [exact Hs'|]. destruct Hhd' as [|y ys Hy]; constructor. lra.
  - constructor; [field_simplify_eq; lra|]. apply (IH x Hx Hs).
Qed.

(** X13.  On a curve of positive values the maximum drawdown is a finite
    percentage between -100 and 0. *)
Theorem max_drawdown_of_positive_curve (equity_curve : list Q) :
  Forall (Qlt 0) equity_curve ->
  exists d,
    compute_metrics sqrtQ equity_curve !! "max_drawdown" = Some (Fin d) /\
    -100 <= d /\ d <= 0.
Proof.
  intros H. rewrite max_drawdown_lookup.
  destruct equity_curve as [|x rest].
  - exists 0. split; [reflexivity|]. split; discriminate.
  - rewrite (drawdown_series x rest H).
    cbn [drawdowns map]. rewrite fmin_finite. cbn [F.mul F.round].
    eexists. split; [reflexivity|].
    pose proof (drawdowns_bounds x (x :: rest) (Forall_inv H) H) as Hb.
    cbn [drawdowns] in Hb.
    pose proof (least_keeps (fun d => -1 <= d /\ d <= 0) _ _
                  (Forall_inv Hb) (Forall_inv_tail Hb)) as [Hlo Hhi].
    split.
    + apply Qle_trans with (py_round (-100) 2); [discriminate|].
      apply py_round_mono. lra.
    + apply Qle_trans with (py_round 0 2); [|discriminate].
      apply py_round_mono. lra.
Qed.

(** X14.  On a curve of positive values that never falls, and on the empty
    curve, the maximum drawdown is exactly 0. *)
Theorem max_drawdown_of_rising_curve (equity_curve : list Q) :
  Forall (Qlt 0) equity_curve -> rising equity_curve ->
  compute_metrics sqrtQ equity_curve !! "max_drawdown" = Some (Fin 0).
Proof.
  intros H Hs. rewrite max_drawdown_lookup.
  destruct equity_curve as [|x rest]; [reflexivity|].
  rewrite (drawdown_series x rest H).
  cbn [drawdowns map]. rewrite fmin_finite. cbn [F.mul F.round].
  assert (Hz : Forall (fun d => d == 0) (drawdowns x (x :: rest))).
  { apply drawdowns_rising; [exact (Forall_inv H)|].
    constructor; [exact Hs|]. constructor. apply Qle_refl. }
  cbn [drawdowns] in Hz.
  pose proof (least_keeps (fun d => d == 0) _ _ (Forall_inv Hz) (Forall_inv_tail Hz)) as E.
  rewrite (py_round_proper _ 0 2); [reflexivity|]. rewrite E. ring.
Qed.

End Drawdown.

Lemma max_drawdown_of_positive_curve_witness :
  exists d,
    compute_metrics (fun q => q) [100; 110; 99; 120] !! "max_drawdown" = Some (Fin d) /\
    -100 <= d /\ d <= 0.
Proof.
  apply (max_drawdown_of_positive_curve (fun q => q) [100; 110; 99; 120]).
  repeat constructor.
Defined.

Lemma max_drawdown_of_rising_curve_witness :
  compute_metrics (fun q => q) [100; 101; 101; 105] !! "max_drawdown" = Some (Fin 0).
Proof.
  apply (max_drawdown_of_rising_curve (fun q => q) [100; 101; 101; 105]).
  - repeat constructor.
  - repeat constructor; discriminate.
Defined.

(** ** Rounding at the reporting boundary *)

(** X15.  Each figure of the result is the value of the ledger rounded to the
    nearest cent (a ten-thousandth for the position): it differs from it by
    at most half a unit of its last place. *)
Theorem figures_are_rounded (strategy_fn : strategy) (data_csv : list Bar)
    (latency_ms starting_cash slippage_bps : Q) (r : gmap string value) :
  run_backtest strategy_fn data_csv latency_ms starting_cash slippage_bps = Ok r ->
  exists st bar pnl equity c p,
    run_loop latency_ms slippage_bps (init_ledger starting_cash)
      (strategy_fn (sort_values data_csv)) = Ok st /\
    last (sort_values data_csv) = Some bar /\
    r !! "pnl" = Some (VFloat pnl) /\
    r !! "final_equity" = Some (VFloat equity) /\
    r !! "cash" = Some (VFloat c) /\
    r !! "position" = Some (VFloat p) /\
    Qabs (pnl - (cash st + position st * close bar - starting_cash)) <= 1 # 200 /\
    Qabs (equity - (cash st + position st * close bar)) <= 1 # 200 /\
    Qabs (c - cash st) <= 1 # 200 /\
    Qabs (p - position st) <= 1 # 20000.
Proof.
  intros H. apply run_backtest_inv in H as (st & lp & wins & Hrun & Hlast & _ & ->).
  rewrite iloc_last_map in Hlast.
  destruct (last (sort_values data_csv)) as [bar|]; [|discriminate].
  injection Hlast as <-.
  exists st, bar. do 4 eexists. split; [exact Hrun|]. split; [reflexivity|].
  split; [apply summary_pnl|]. split; [apply summary_final_equity|].
  split; [apply summary_cash|]. split; [apply summary_position|].
  repeat split; (eapply Qle_trans; [apply py_round_error|discriminate]).
Qed.

Lemma figures_are_rounded_witness :
  exists r pnl,
    run_backtest simple_momentum scen_bars 3 100000 1 = Ok r /\
    r !! "pnl" = Some (VFloat pnl) /\
    Qabs (pnl - (-(2020 # 1000))) <= 1 # 200.
Proof.
  pose proof (run_backtest_eval simple_momentum scen_bars 3 100000 1 _ _ _
                ltac:(vm_compute; reflexivity) ltac:(vm_compute; reflexivity)
                ltac:(vm_compute; reflexivity)) as E.
  destruct (figures_are_rounded simple_momentum scen_bars 3 100000 1 _ E)
    as (st & bar & pnl & eq & c & p & Hrun & Hl & Hp & _ & _ & _ & Hb & _).
  eexists. exists pnl. split; [exact E|]. split; [exact Hp|].
  vm_compute in Hrun. injection Hrun as <-.
  vm_compute in Hl. injection Hl as <-.
  rewrite summary_pnl in Hp. injection Hp as <-. vm_compute. discriminate.
Defined.

(** ** The sample strategy *)





Lemma momentum_from_never_rises (prev : Bar) (rest : list Bar) :
  never_rises (prev :: rest) -> momentum_from prev rest = [].
Proof.
  unfold never_rises. revert prev. induction rest as [|cur rest IH]; intros prev H;
    [reflexivity|].
  apply Sorted_inv in H as [Hs Hhd]. apply HdRel_inv in Hhd.
  cbn [momentum_from]. rewrite (proj2 (Qle_bool_iff _ _) Hhd). cbn.
  apply IH. exact Hs.
Qed.

(** X17.  When no close is above the close of the bar before it, the sample
    strategy yields nothing and the run leaves the account untouched: no
    trade, a pnl of 0. *)
Theorem simple_momentum_needs_a_rise (data_csv : list Bar)
    (latency_ms starting_cash slippage_bps : Q) :
  data_csv <> [] ->
  never_rises (sort_values data_csv) ->
  simple_momentum (sort_values data_csv) = [] /\
  exists r,
    run_backtest simple_momentum data_csv latency_ms starting_cash slippage_bps = Ok r /\
    r !! "total_trades" = Some (VInt 0) /\
    r !! "pnl" = Some (VFloat 0) /\
    r !! "cash" = Some (VFloat (py_round starting_cash 2)).
Proof.
  intros Hne H.
  assert (E : simple_momentum (sort_values data_csv) = []).
  { unfold simple_momentum.
    rewrite (sort_values_ascending (sort_values data_csv) (sort_values_is_ascending _)).
    destruct (sort_values data_csv) as [|b rest]; [reflexivity|].
    apply momentum_from_never_rises. exact H. }
  split; [exact E|].
  destruct (idle_strategy simple_momentum data_csv latency_ms starting_cash slippage_bps
              Hne E) as (r & Hr & Hc & _ & _ & Hp & Ht & _).
  exists r. repeat split; assumption.
Qed.

Lemma simple_momentum_needs_a_rise_witness :
  simple_momentum [mk_bar 0 100 100; mk_bar 1 99 99; mk_bar 2 99 99] = [].
Proof.
  apply (simple_momentum_needs_a_rise [mk_bar 0 100 100; mk_bar 1 99 99; mk_bar 2 99 99]
           0 1000 1); [discriminate|].
  repeat constructor; discriminate.
Defined.






(** ** The latency estimator *)

(** The one-way estimate grows with the distance, by 1 ms every
    200 km, and is never below the overhead for a distance that is not
    negative. *)
Theorem estimate_fiber_latency_grows (d d' overhead : Q) :
  d <= d' ->
  estimate_fiber_latency d overhead <= estimate_fiber_latency d' overhead /\
  estimate_fiber_latency (d + 200) overhead == estimate_fiber_latency d overhead + 1 /\
  (0 <= d -> overhead <= estimate_fiber_latency d overhead).
Proof.
  intros H. unfold estimate_fiber_latency, SPEED_OF_LIGHT_FIBER_KM_PER_MS.
  split; [|split].
  - apply Qplus_le_l. apply Qmult_le_compat_r; [exact H|discriminate].
  - field.
  - intros Hd. assert (0 <= d / 200) by (apply Qle_shift_div_l; [reflexivity|lra]). lra.
Qed.

Lemma estimate_fiber_latency_grows_witness :
  estimate_fiber_latency 1150 AVERAGE_OVERHEAD_MS
  <= estimate_fiber_latency 1800 AVERAGE_OVERHEAD_MS.
Proof.
  assert (H : 1150 <= 1800) by discriminate.
  exact (proj1 (estimate_fiber_latency_grows 1150 1800 AVERAGE_OVERHEAD_MS H)).
Defined.

Lemma uniform_range (a b u : Q) :
  a <= b -> 0 <= u -> u <= 1 -> a <= uniform a b u /\ uniform a b u <= b.
Proof. intros Hab H0 H1. unfold uniform. split; nra. Qed.

(** X19.  The simulated round trip stays within the jitter of twice the
    one-way estimate: for a draw of [[0, 1]], a jitter and a distance that
    are not negative, it lies between the roundings of [base * (1 - jitter)]
    and of [base * (1 + jitter)], [base] being twice the estimate. *)
Theorem round_trip_latency_range (distance_km jitter u : Q) :
  0 <= distance_km -> 0 <= jitter -> 0 <= u -> u <= 1 ->
  let base := estimate_fiber_latency distance_km AVERAGE_OVERHEAD_MS * 2 in
  py_round (base * (1 - jitter)) 3 <= round_trip_latency distance_km jitter u /\
  round_trip_latency distance_km jitter u <= py_round (base * (1 + jitter)) 3.
Proof.
  intros Hd Hj H0 H1 base.
  assert (Hb : 0 <= base).
  { subst base.
    destruct (estimate_fiber_latency_grows distance_km distance_km AVERAGE_OVERHEAD_MS
                (Qle_refl _)) as (_ & _ & Ho).
    specialize (Ho Hd). unfold AVERAGE_OVERHEAD_MS in Ho at 1. lra. }
  destruct (uniform_range (- jitter) jitter u) as [Hlo Hhi]; [lra|exact H0|exact H1|].
  unfold round_trip_latency. fold base.
  split; apply py_round_mono; nra.
Qed.

Lemma round_trip_latency_range_witness :
  py_round ((estimate_fiber_latency 1800 AVERAGE_OVERHEAD_MS * 2) * (1 - default_jitter)) 3
  <= round_trip_latency 1800 default_jitter (1 # 4).
Proof.
  assert (Hd : 0 <= 1800) by discriminate.
  assert (Hj : 0 <= default_jitter) by discriminate.
  assert (H0 : 0 <= 1 # 4) by discriminate.
  assert (H1 : 1 # 4 <= 1) by discriminate.
  exact (proj1 (round_trip_latency_range 1800 default_jitter (1 # 4) Hd Hj H0 H1)).
Defined.

(** ** The agent *)











(** X22.  The latency the agent hands to the backtest is never negative: for
    a distance that is not negative and a draw of [[0, 1]] the simulated
    round trip is at least 2.4 ms (twice the overhead, less the jitter of
    20%), and the reported one-way latency_ms at least 1.2 ms. *)
Theorem agent_latency_floor (distance_km u : Q) :
  0 <= distance_km -> 0 <= u -> u <= 1 ->
  12 # 5 <= round_trip_latency distance_km default_jitter u /\
  6 # 5 <= py_round (round_trip_latency distance_km default_jitter u / 2) 2.
Proof.
  intros Hd H0 H1.
  assert (Hj : 0 <= default_jitter) by discriminate.
  destruct (round_trip_latency_range distance_km default_jitter u Hd Hj H0 H1) as [Hlo _].
  cbv zeta in Hlo.
  destruct (estimate_fiber_latency_grows distance_km distance_km AVERAGE_OVERHEAD_MS
              (Qle_refl _)) as (_ & _ & Ho).
  specialize (Ho Hd).
  assert (Hr : 12 # 5 <= round_trip_latency distance_km default_jitter u).
  { eapply Qle_trans; [|exact Hlo].
    apply Qle_trans with (py_round (12 # 5) 3); [discriminate|].
    apply py_round_mono.
    set (e := estimate_fiber_latency distance_km AVERAGE_OVERHEAD_MS) in *.
    unfold default_jitter, AVERAGE_OVERHEAD_MS in *. lra. }
  split; [exact Hr|].
  apply Qle_trans with (py_round (6 # 5) 2); [discriminate|].
  apply py_round_mono. apply Qle_shift_div_l; [reflexivity|]. lra.
Qed.

Lemma agent_latency_floor_witness :
  12 # 5 <= round_trip_latency 1800 default_jitter (1 # 2).
Proof.
  assert (Hd : 0 <= 1800) by discriminate.
  assert (H0 : 0 <= 1 # 2) by discriminate.
  assert (H1 : 1 # 2 <= 1) by discriminate.
  exact (proj1 (agent_latency_floor 1800 (1 # 2) Hd H0 H1)).
Defined.

(** ** The range of the win rate *)

Lemma win_trades_length (ts wins : list executed) :
  win_trades ts = Ok wins -> (length wins <= length ts)%nat.
Proof.
  revert wins. induction ts as [|t ts IH]; intros wins H.
  - injection H as <-. reflexivity.
  - cbn in H. destruct (is_win t) as [w|]; [|discriminate]. cbn in H.
    destruct (win_trades ts) as [ws|]; [|discriminate]. cbn in H.
    injection H as <-. specialize (IH ws eq_refl). destruct w; cbn; lia.
Qed.

Lemma win_rate_of_range (wins total : nat) :
  (wins <= total)%nat -> 0 <= win_rate_of wins total /\ win_rate_of wins total <= 200.
Proof.
  intros H. unfold win_rate_of. destruct (2 <=? total)%nat eqn:E; [|split; discriminate].
  apply Nat.leb_le in E.
  assert (Hw : 0 <= inject_Z (Z.of_nat wins)).
  { change 0 with (inject_Z 0). rewrite <- Zle_Qle. lia. }
  assert (Ht : 0 < inject_Z (Z.of_nat total)).
  { change 0 with (inject_Z 0). rewrite <- Zlt_Qlt. lia. }
  assert (Hwt : inject_Z (Z.of_nat wins) <= inject_Z (Z.of_nat total)).
  { rewrite <- Zle_Qle. lia. }
  set (w := inject_Z (Z.of_nat wins)) in *. set (t := inject_Z (Z.of_nat total)) in *.
  assert (Hh : 0 < t / 2) by (apply Qlt_shift_div_l; [reflexivity|lra]).
  assert (Hq : 0 <= w / (t / 2) /\ w / (t / 2) <= 2).
  { split.
    - apply Qle_shift_div_l; [exact Hh|]. lra.
    - apply Qle_shift_div_r; [exact Hh|].
      assert (E2 : 2 * (t / 2) == t) by field. rewrite E2. exact Hwt. }
  destruct Hq as [Hq0 Hq2]. split; nra.
Qed.

(** X23.  The win_rate is a number between 0 and 200: the winning Sells are
    counted against half the trades, whatever the share of the Sells among
    the trades. *)
Theorem win_rate_range (strategy_fn : strategy) (data_csv : list Bar)
    (latency_ms starting_cash slippage_bps : Q) (r : gmap string value) :
  run_backtest strategy_fn data_csv latency_ms starting_cash slippage_bps = Ok r ->
  exists w, r !! "win_rate" = Some (VFloat w) /\ 0 <= w /\ w <= 200.
Proof.
  intros H. apply run_backtest_inv in H as (st & lp & wins & _ & _ & Hw & ->).
  eexists. split; [apply summary_win_rate|].
  destruct (win_rate_of_range (length wins) (length (trades st))
              (win_trades_length _ _ Hw)) as [H0 H2].
  split.
  - apply Qle_trans with (py_round 0 2); [discriminate|]. apply py_round_mono. exact H0.
  - apply Qle_trans with (py_round 200 2); [|discriminate]. apply py_round_mono. exact H2.
Qed.

Lemma win_rate_range_witness :
  exists r w,
    run_backtest
      (fun _ => [Trade.mk (Some 1) (Some "sell") (Some 100) (Some 0);
                 Trade.mk (Some 2) (Some "sell") (Some 100) (Some 0)])
      scen_bars 0 1000 (-1) = Ok r /\
    r !! "win_rate" = Some (VFloat w) /\ 0 <= w /\ w <= 200.
Proof.
  pose proof (run_backtest_eval
                (fun _ => [Trade.mk (Some 1) (Some "sell") (Some 100) (Some 0);
                           Trade.mk (Some 2) (Some "sell") (Some 100) (Some 0)])
                scen_bars 0 1000 (-1) _ _ _
                ltac:(vm_compute; reflexivity) ltac:(vm_compute; reflexivity)
                ltac:(vm_compute; reflexivity)) as E.
  destruct (win_rate_range _ _ _ _ _ _ E) as (w & Hw & H0 & H2).
  eexists. exists w. split; [exact E|]. repeat split; assumption.
Defined.

(** The upper bound is reached: two Sells of size 0 at a favourable slippage
    are two trades and two wins. *)
Example win_rate_of_two_hundred :
  exists r,
    run_backtest
      (fun _ => [Trade.mk (Some 1) (Some "sell") (Some 100) (Some 0);
                 Trade.mk (Some 2) (Some "sell") (Some 100) (Some 0)])
      scen_bars 0 1000 (-1) = Ok r /\
    r !! "total_trades" = Some (VInt 2) /\
    r !! "win_rate" = Some (VFloat 200).
Proof.
  eexists. split; [eval_run|]. rewrite summary_total_trades, summary_win_rate.
  split; vm_compute; reflexivity.
Qed.

(** ** The sample strategy keeps the ledger solvent *)




(** ** Curves of two points *)

(** X25.  A curve of two points whose first value is not 0 has a single return:
    its sample standard deviation is undefined and the Sharpe ratio is
    [nan], whatever the second value. *)
Theorem sharpe_of_two_points (sqrtQ : Q -> Q) (x0 x1 : Q) :
  ~ x0 == 0 ->
  compute_metrics sqrtQ [x0; x1] !! "sharpe_ratio" = Some NaN.
Proof.
  intros H. rewrite sharpe_lookup.
  cbn [map pct_change shift removelast zip_with F.div F.sub F.neg F.add].
  destruct (Qeq_bool x0 0) eqn:E; [apply Qeq_bool_iff in E; contradiction|].
  reflexivity.
Qed.

Lemma sharpe_of_two_points_witness :
  compute_metrics (fun q => q) [100; 150] !! "sharpe_ratio" = Some NaN.
Proof. apply (sharpe_of_two_points (fun q => q) 100 150). discriminate. Defined.

Lemma sharpe_of_short_curve_witness :
  compute_metrics (fun q => q) [100] !! "sharpe_ratio" = Some (Fin 0).
Proof. apply (sharpe_of_short_curve (fun q => q) [100]). cbn. lia. Defined.

Lemma sharpe_of_flat_curve_general_witness :
  compute_metrics (fun q => q) (flat_curve 100 4) !! "sharpe_ratio" = Some NaN.
Proof. apply (sharpe_of_flat_curve_general (fun q => q) 100 2). discriminate. Defined.
